(** * application.py: drain an SQS queue of login events, mask the PII
      fields, insert the masked records into PostgreSQL and delete the
      messages.

    The script is embedded shallowly.  Python values are an inductive type,
    Python [str] is a sequence of code points, [hashlib.sha256] is the
    FIPS 180-4 function on byte lists, and the three external services
    (the JSON decoder, the SQS client and the database connection) are the
    fields of a record of capabilities over which the script is
    parameterised.  Uncaught exceptions end the script, as in Python. *)

From Stdlib Require Import String Ascii ZArith List Bool Lia.
Import ListNotations.
Local Open Scope Z_scope.

(* ================================================================== *)
(** ** Python strings and [str.encode()] *)

(** A Python [str] is a sequence of code points in [range(0x110000)];
    lone surrogates are legal members of a [str]. *)
Definition pystr := list Z.

(** ASCII literals of the script, as code points. *)
Definition py (s : string) : pystr :=
  map (fun a => Z.of_N (N_of_ascii a)) (list_ascii_of_string s).

Fixpoint str_eqb (s t : pystr) : bool :=
  match s, t with
  | [], [] => true
  | c :: s', d :: t' => (c =? d) && str_eqb s' t'
  | _, _ => false
  end.

Fixpoint str_startswith (p s : pystr) : bool :=
  match p, s with
  | [], _ => true
  | c :: p', d :: s' => (c =? d) && str_startswith p' s'
  | _ :: _, [] => false
  end.

(** [p in s] for two strings: substring test. *)
Fixpoint str_contains (p s : pystr) : bool :=
  str_startswith p s ||
  match s with
  | [] => false
  | _ :: s' => str_contains p s'
  end.

Definition is_surrogate (c : Z) : bool := (0xD800 <=? c) && (c <=? 0xDFFF).

(** A code point that the UTF-8 codec accepts under [errors='strict']. *)
Definition is_scalar (c : Z) : bool :=
  (0 <=? c) && (c <=? 0x10FFFF) && negb (is_surrogate c).

(** UTF-8 bytes of one code point; [None] is [UnicodeEncodeError]. *)
Definition utf8_char (c : Z) : option (list Z) :=
  if negb (is_scalar c) then None
  else if c <? 0x80 then Some [c]
  else if c <? 0x800 then
    Some [Z.lor 0xC0 (Z.shiftr c 6); Z.lor 0x80 (Z.land c 0x3F)]
  else if c <? 0x10000 then
    Some [Z.lor 0xE0 (Z.shiftr c 12);
          Z.lor 0x80 (Z.land (Z.shiftr c 6) 0x3F);
          Z.lor 0x80 (Z.land c 0x3F)]
  else
    Some [Z.lor 0xF0 (Z.shiftr c 18);
          Z.lor 0x80 (Z.land (Z.shiftr c 12) 0x3F);
          Z.lor 0x80 (Z.land (Z.shiftr c 6) 0x3F);
          Z.lor 0x80 (Z.land c 0x3F)].

(** [s.encode()]: UTF-8, strict. *)
Fixpoint str_encode (s : pystr) : option (list Z) :=
  match s with
  | [] => Some []
  | c :: s' =>
      match utf8_char c, str_encode s' with
      | Some bs, Some rest => Some (bs ++ rest)
      | _, _ => None
      end
  end.

(* ================================================================== *)
(** ** [hashlib.sha256(...).hexdigest()] *)

Module Sha256.

Definition mask32 : Z := 0xFFFFFFFF.
Definition add32 (x y : Z) : Z := Z.land (x + y) mask32.
Definition not32 (x : Z) : Z := Z.lxor x mask32.
Definition rotr (n x : Z) : Z :=
  Z.lor (Z.shiftr x n) (Z.land (Z.shiftl x (32 - n)) mask32).

Definition ch (x y z : Z) : Z := Z.lxor (Z.land x y) (Z.land (not32 x) z).
Definition maj (x y z : Z) : Z :=
  Z.lxor (Z.lxor (Z.land x y) (Z.land x z)) (Z.land y z).
Definition bsig0 (x : Z) : Z := Z.lxor (Z.lxor (rotr 2 x) (rotr 13 x)) (rotr 22 x).
Definition bsig1 (x : Z) : Z := Z.lxor (Z.lxor (rotr 6 x) (rotr 11 x)) (rotr 25 x).
Definition ssig0 (x : Z) : Z := Z.lxor (Z.lxor (rotr 7 x) (rotr 18 x)) (Z.shiftr x 3).
Definition ssig1 (x : Z) : Z := Z.lxor (Z.lxor (rotr 17 x) (rotr 19 x)) (Z.shiftr x 10).

(** FIPS 180-4 takes its constants from the first 64 primes: the round
    constants are the first 32 bits of the fractional parts of their cube
    roots, the initial hash value those of the square roots of the first
    eight. *)
Definition is_prime (n : Z) : bool :=
  (2 <=? n) &&
  forallb (fun d => negb (n mod (Z.of_nat d) =? 0)) (seq 2 (Z.to_nat n - 2)).

Definition primes : list Z :=
  firstn 64 (filter is_prime (map Z.of_nat (seq 2 310))).

(** Largest [r] below [2 ^ bits] with [r ^ 3 <= n], found bit by bit. *)
Fixpoint cube_root_from (bits : nat) (n r : Z) : Z :=
  match bits with
  | O => r
  | S bits' =>
      let r' := r + 2 ^ Z.of_nat bits' in
      cube_root_from bits' n (if r' * r' * r' <=? n then r' else r)
  end.

Definition cube_root_fraction (p : Z) : Z :=
  Z.land (cube_root_from 36 (p * 2 ^ 96) 0) mask32.

Definition square_root_fraction (p : Z) : Z :=
  Z.land (Z.sqrt (p * 2 ^ 64)) mask32.

Definition round_constants : list Z :=
  Eval vm_compute in map cube_root_fraction primes.

(** The eight working words. *)
Record regs := Regs { ra : Z; rb : Z; rc : Z; rd : Z;
                      re : Z; rf : Z; rg : Z; rh : Z }.

Definition initial : regs :=
  Eval vm_compute in
    let h := map square_root_fraction primes in
    Regs (nth 0 h 0) (nth 1 h 0) (nth 2 h 0) (nth 3 h 0)
         (nth 4 h 0) (nth 5 h 0) (nth 6 h 0) (nth 7 h 0).

(** Big-endian bytes of an integer, [n] of them. *)
Fixpoint be_bytes (n : nat) (x : Z) : list Z :=
  match n with
  | O => []
  | S n' => Z.land (Z.shiftr x (8 * Z.of_nat n')) 0xFF :: be_bytes n' x
  end.

Fixpoint be_word (bs : list Z) (acc : Z) : Z :=
  match bs with
  | [] => acc
  | b :: bs' => be_word bs' (Z.lor (Z.shiftl acc 8) b)
  end.

(** Message, then 0x80, zeros up to 56 mod 64, then the bit length on
    eight bytes. *)
Definition pad (msg : list Z) : list Z :=
  let len := Z.of_nat (length msg) in
  let zeros := Z.to_nat ((55 - len) mod 64) in
  msg ++ 0x80 :: repeat 0 zeros ++ be_bytes 8 (8 * len).

Fixpoint words (n : nat) (bs : list Z) : list Z :=
  match n with
  | O => []
  | S n' => be_word (firstn 4 bs) 0 :: words n' (skipn 4 bs)
  end.

(** The schedule is kept newest first: the head is W(t-1). *)
Fixpoint extend (n : nat) (rev_w : list Z) : list Z :=
  match n with
  | O => rev_w
  | S n' =>
      let w2 := nth 1 rev_w 0 in
      let w7 := nth 6 rev_w 0 in
      let w15 := nth 14 rev_w 0 in
      let w16 := nth 15 rev_w 0 in
      extend n' (add32 (add32 (add32 (ssig1 w2) w7) (ssig0 w15)) w16 :: rev_w)
  end.

Definition schedule (block : list Z) : list Z :=
  rev (extend 48 (rev (words 16 block))).

Definition round (r : regs) (kw : Z * Z) : regs :=
  let t1 := add32 (add32 (add32 (add32 (rh r) (bsig1 (re r)))
                                (ch (re r) (rf r) (rg r))) (fst kw)) (snd kw) in
  let t2 := add32 (bsig0 (ra r)) (maj (ra r) (rb r) (rc r)) in
  Regs (add32 t1 t2) (ra r) (rb r) (rc r) (add32 (rd r) t1) (re r) (rf r) (rg r).

Definition compress (h : regs) (block : list Z) : regs :=
  let r := fold_left round (combine round_constants (schedule block)) h in
  Regs (add32 (ra h) (ra r)) (add32 (rb h) (rb r))
       (add32 (rc h) (rc r)) (add32 (rd h) (rd r))
       (add32 (re h) (re r)) (add32 (rf h) (rf r))
       (add32 (rg h) (rg r)) (add32 (rh h) (rh r)).

Fixpoint absorb (n : nat) (h : regs) (bs : list Z) : regs :=
  match n with
  | O => h
  | S n' => absorb n' (compress h (firstn 64 bs)) (skipn 64 bs)
  end.

(** The 32 bytes of the digest. *)
Definition digest (msg : list Z) : list Z :=
  let p := pad msg in
  let h := absorb (length p / 64) initial p in
  flat_map (be_bytes 4)
    [ra h; rb h; rc h; rd h; re h; rf h; rg h; rh h].

(** Code point of the lowercase hexadecimal digit of a nibble. *)
Definition hex_digit (n : Z) : Z := if n <? 10 then 48 + n else 87 + n.

Definition hex_byte (b : Z) : list Z :=
  [hex_digit (Z.land (Z.shiftr b 4) 0xF); hex_digit (Z.land b 0xF)].

Definition hexdigest (msg : list Z) : pystr := flat_map hex_byte (digest msg).

End Sha256.

(* ================================================================== *)
(** ** Python values, exceptions and the operators the script applies *)

(** What [json.loads] can return. A float is kept as its IEEE-754 bits. *)
#[warnings="-register-all"]
Inductive pyval :=
| PNone
| PBool (b : bool)
| PInt (n : Z)
| PFloat (bits : Z)
| PStr (s : pystr)
| PList (l : list pyval)
| PDict (d : list (pystr * pyval)).

Inductive exn :=
| JSONDecodeError
| TypeError
| KeyError
| IndexError
| AttributeError
| UnicodeEncodeError
| NameError
| DatabaseError
| ClientError.

Inductive result (A : Type) :=
| Ok (a : A)
| Raise (e : exn).
Arguments Ok {A} a.
Arguments Raise {A} e.

Definition rbind {A B} (r : result A) (k : A -> result B) : result B :=
  match r with
  | Ok a => k a
  | Raise e => Raise e
  end.

Notation "x <~ r ; k" := (rbind r (fun x => k))
  (at level 61, r at next level, right associativity).

(** A dict keeps its keys in insertion order; lookup takes the first
    binding of a key and assignment rewrites that binding in place. *)
Definition pydict := list (pystr * pyval).

Fixpoint dict_lookup (k : pystr) (d : pydict) : option pyval :=
  match d with
  | [] => None
  | (k', v) :: d' => if str_eqb k' k then Some v else dict_lookup k d'
  end.

Fixpoint dict_assign (k : pystr) (v : pyval) (d : pydict) : pydict :=
  match d with
  | [] => [(k, v)]
  | (k', v') :: d' =>
      if str_eqb k' k then (k', v) :: d' else (k', v') :: dict_assign k v d'
  end.

Definition is_the_str (k : pystr) (v : pyval) : bool :=
  match v with
  | PStr s => str_eqb s k
  | _ => false
  end.

(** ['k' in o] *)
Definition py_in (k : pystr) (o : pyval) : result bool :=
  match o with
  | PDict d => Ok (match dict_lookup k d with Some _ => true | None => false end)
  | PList l => Ok (existsb (is_the_str k) l)
  | PStr s => Ok (str_contains k s)
  | _ => Raise TypeError
  end.

(** [o['k']] *)
Definition py_getitem (o : pyval) (k : pystr) : result pyval :=
  match o with
  | PDict d => match dict_lookup k d with
               | Some v => Ok v
               | None => Raise KeyError
               end
  | _ => Raise TypeError
  end.

(** [o['k'] = v]; the object after the assignment. *)
Definition py_setitem (o : pyval) (k : pystr) (v : pyval) : result pyval :=
  match o with
  | PDict d => Ok (PDict (dict_assign k v d))
  | _ => Raise TypeError
  end.

(** [o.get('k', None)] *)
Definition py_get (o : pyval) (k : pystr) : result pyval :=
  match o with
  | PDict d => Ok (match dict_lookup k d with Some v => v | None => PNone end)
  | _ => Raise AttributeError
  end.

(* ================================================================== *)
(** ** Lines 67-72: [mask_pii] *)

Definition mask_pii (data : pyval) : result pyval :=
  match data with
  | PStr s =>
      match str_encode s with
      | Some bytes => Ok (PStr (Sha256.hexdigest bytes))
      | None => Raise UnicodeEncodeError
      end
  | _ => Raise AttributeError
  end.

(** Lines 80-81 and 84-85: [if 'k' in message_body:
    message_body['k'] = mask_pii(message_body['k'])]. *)
Definition mask_field (k : pystr) (message_body : pyval) : result pyval :=
  present <~ py_in k message_body;
  if present : bool then
    raw <~ py_getitem message_body k;
    hashed <~ mask_pii raw;
    py_setitem message_body k hashed
  else Ok message_body.

(** Lines 108-116: the parameter tuple. *)
Definition insert_data (message_body app_version : pyval) : result (list pyval) :=
  user_id <~ py_get message_body (py "user_id");
  device_type <~ py_get message_body (py "device_type");
  ip <~ py_get message_body (py "ip");
  device_id <~ py_get message_body (py "device_id");
  locale <~ py_get message_body (py "locale");
  Ok [user_id; device_type; ip; device_id; locale; app_version].

(* ================================================================== *)
(** ** Lines 102-105: the INSERT statement *)

Inductive sql_expr :=
| Placeholder      (* %s *)
| CurrentDate.     (* CURRENT_DATE *)

Record statement := Statement {
  st_table : string;
  st_columns : list string;
  st_values : list sql_expr
}.

Definition insert_query : statement :=
  Statement "user_logins"
    ["user_id"; "device_type"; "masked_ip"; "masked_device_id";
     "locale"; "app_version"; "create_date"]%string
    [Placeholder; Placeholder; Placeholder; Placeholder;
     Placeholder; Placeholder; CurrentDate].

(** A value in a row: a bound parameter, or a date computed by the server
    (a day number). *)
Inductive sql_value :=
| SqlParam (v : pyval)
| SqlDate (day : Z).

Definition row := list (string * sql_value).

(** Placeholders take the parameters in order; [CURRENT_DATE] is the
    server's date. Too few parameters and left-over parameters are
    errors of the driver. *)
Fixpoint bind_values (es : list sql_expr) (params : list pyval) (today : Z)
  : result (list sql_value) :=
  match es with
  | [] => match params with
          | [] => Ok []
          | _ :: _ => Raise TypeError
          end
  | CurrentDate :: es' =>
      vs <~ bind_values es' params today;
      Ok (SqlDate today :: vs)
  | Placeholder :: es' =>
      match params with
      | [] => Raise IndexError
      | p :: params' =>
          vs <~ bind_values es' params' today;
          Ok (SqlParam p :: vs)
      end
  end.

Fixpoint column (c : string) (r : row) : option sql_value :=
  match r with
  | [] => None
  | (c', v) :: r' => if String.eqb c' c then Some v else column c r'
  end.

(* ================================================================== *)
(** ** Messages, output lines and the events of a run *)

Record message := Message { Body : pystr; ReceiptHandle : pystr }.

(** The response of [receive_message]. *)
Inductive received :=
| NoMessages                      (* no 'Messages' key *)
| Messages (batch : list message)
| ReceiveError.                   (* the call raised *)

(** [print(text, arg)] *)
Inductive printed :=
| PJson (v : pyval)   (* the text json.dumps(v) *)
| PExn (e : exn).

Record line := Line { text : string; args : list printed }.

Inductive action :=
| Loads (ok : bool)               (* json.loads(message['Body']) *)
| Print (l : line)
| Execute (r : row) (ok : bool)   (* cursor.execute(insert_query, data) *)
| Commit (ok : bool)              (* connection.commit() *)
| Delete (handle : pystr) (ok : bool).   (* sqs.delete_message(...) *)

Inductive event :=
| Receive (max : Z) (resp : received)
| Stdout (l : line)
| Alter (ok : bool)
| CommitAlter (ok : bool)
| Close
| Msg (i : nat) (a : action).     (* [i]: position in [messages] *)

(* ================================================================== *)
(** ** The external services *)

(** The script reaches the JSON decoder, the SQS endpoint and the
    PostgreSQL server through library calls. Each call is a function of
    the service's state; [false] (or [None], or [ReceiveError]) is a call
    that raises, and the state a failed call leaves is the service's
    choice. *)
Record services := Services {
  Queue : Type;
  Store : Type;
  json_loads : pystr -> option pyval;
  receive_message : Queue -> Z -> received * Queue;
  delete_message : Queue -> pystr -> bool * Queue;
  connect : option Store;                     (* psycopg2.connect(...) *)
  current_date : Store -> Z;                  (* CURRENT_DATE *)
  alter_column : Store -> bool * Store;       (* the ALTER TABLE statement *)
  insert_row : Store -> string -> row -> bool * Store;
  commit : Store -> bool * Store
}.

Section Script.

Context (sv : services).

(** [conn] is [None] while the names [connection] and [cursor] are
    unbound (line 32 raised). *)
Record world := World { queue : Queue sv; conn : option (Store sv) }.

(** A computation emits events, changes the world and returns or
    raises. *)
Definition M (A : Type) : Type := world -> list event * world * result A.

Definition ret {A} (a : A) : M A := fun w => ([], w, Ok a).

Definition bind {A B} (m : M A) (k : A -> M B) : M B :=
  fun w =>
    match m w with
    | (t1, w1, Ok a) => let '(t2, w2, r) := k a w1 in (t1 ++ t2, w2, r)
    | (t1, w1, Raise e) => (t1, w1, Raise e)
    end.

Definition lift {A} (r : result A) : M A := fun w => ([], w, r).

Definition emit (ev : event) : M unit := fun w => ([ev], w, Ok tt).

(** [try: m  except (Exception, psycopg2.Error) as error: h error] *)
Definition try_except (m : M unit) (h : exn -> M unit) : M unit :=
  fun w =>
    match m w with
    | (t1, w1, Ok a) => (t1, w1, Ok a)
    | (t1, w1, Raise e) => let '(t2, w2, r) := h e w1 in (t1 ++ t2, w2, r)
    end.

Notation "x <- m ;; k" := (bind m (fun x => k))
  (at level 61, m at next level, right associativity).
Notation "m ;; k" := (bind m (fun _ => k))
  (at level 61, right associativity).

(** Lines 31-42. *)
Definition connect_database : M unit :=
  fun w =>
    match connect sv with
    | Some s =>
        ([Stdout (Line "Connected to PostgreSQL database" [])],
         World (queue w) (Some s), Ok tt)
    | None =>
        ([Stdout (Line "Error while connecting to PostgreSQL:" [PExn DatabaseError])],
         w, Ok tt)
    end.

Definition cursor_execute_alter : M unit :=
  fun w =>
    match conn w with
    | None => ([], w, Raise NameError)
    | Some s =>
        let '(ok, s') := alter_column sv s in
        ([Alter ok], World (queue w) (Some s'),
         if ok then Ok tt else Raise DatabaseError)
    end.

Definition connection_commit_alter : M unit :=
  fun w =>
    match conn w with
    | None => ([], w, Raise NameError)
    | Some s =>
        let '(ok, s') := commit sv s in
        ([CommitAlter ok], World (queue w) (Some s'),
         if ok then Ok tt else Raise DatabaseError)
    end.

(** Lines 45-54. *)
Definition alter_app_version : M unit :=
  try_except
    (cursor_execute_alter ;;
     connection_commit_alter ;;
     emit (Stdout (Line "Column 'app_version' type altered to VARCHAR" [])))
    (fun error =>
       emit (Stdout (Line "Error while altering column type:" [PExn error]))).

(** Line 59. *)
Definition sqs_receive_message (max : Z) : M (option (list message)) :=
  fun w =>
    let '(resp, q') := receive_message sv (queue w) max in
    ([Receive max resp], World q' (conn w),
     match resp with
     | NoMessages => Ok None
     | Messages batch => Ok (Some batch)
     | ReceiveError => Raise ClientError
     end).

(** Lines 57-63. [while True] is unrolled [fuel] times; [None] is a loop
    that is still polling when the fuel is spent. *)
Fixpoint receive_all (fuel : nat) (messages : list message)
  : M (option (list message)) :=
  match fuel with
  | O => ret None
  | S fuel' =>
      response <- sqs_receive_message 10 ;;
      match response with
      | None => ret (Some messages)
      | Some batch => receive_all fuel' (messages ++ batch)
      end
  end.

(** Line 77. *)
Definition loads_body (i : nat) (m : message) : M pyval :=
  fun w =>
    match json_loads sv (Body m) with
    | Some v => ([Msg i (Loads true)], w, Ok v)
    | None => ([Msg i (Loads false)], w, Raise JSONDecodeError)
    end.

(** Line 117. *)
Definition cursor_execute (i : nat) (q : statement) (data : list pyval) : M unit :=
  fun w =>
    match conn w with
    | None => ([], w, Raise NameError)
    | Some s =>
        match bind_values (st_values q) data (current_date sv s) with
        | Raise e => ([], w, Raise e)
        | Ok values =>
            let r := combine (st_columns q) values in
            let '(ok, s') := insert_row sv s (st_table q) r in
            ([Msg i (Execute r ok)], World (queue w) (Some s'),
             if ok then Ok tt else Raise DatabaseError)
        end
    end.

(** Line 118. *)
Definition connection_commit (i : nat) : M unit :=
  fun w =>
    match conn w with
    | None => ([], w, Raise NameError)
    | Some s =>
        let '(ok, s') := commit sv s in
        ([Msg i (Commit ok)], World (queue w) (Some s'),
         if ok then Ok tt else Raise DatabaseError)
    end.

(** Line 123. *)
Definition sqs_delete_message (i : nat) (receipt_handle : pystr) : M unit :=
  fun w =>
    let '(ok, q') := delete_message sv (queue w) receipt_handle in
    ([Msg i (Delete receipt_handle ok)], World q' (conn w),
     if ok then Ok tt else Raise ClientError).

(** Lines 77-123: the body of the [for] loop, for the message at
    position [i]. *)
Definition process_message (i : nat) (m : message) : M unit :=
  message_body <- loads_body i m ;;
  message_body <- lift (mask_field (py "device_id") message_body) ;;
  message_body <- lift (mask_field (py "ip") message_body) ;;
  app_version <- lift (py_get message_body (py "app_version")) ;;
  emit (Msg i (Print (Line "Masked message:" [PJson message_body]))) ;;
  data <- lift (insert_data message_body app_version) ;;
  cursor_execute i insert_query data ;;
  connection_commit i ;;
  sqs_delete_message i (ReceiptHandle m).

(** Lines 75-123. *)
Fixpoint process_messages (i : nat) (messages : list message) : M unit :=
  match messages with
  | [] => ret tt
  | m :: rest => process_message i m ;; process_messages (S i) rest
  end.

(** Lines 57-123, one drain cycle. [false]: still polling. *)
Definition drain (fuel : nat) : M bool :=
  received <- receive_all fuel [] ;;
  match received with
  | None => ret false
  | Some messages => process_messages 0 messages ;; ret true
  end.

(** Lines 125-128. *)
Definition close_connection : M unit :=
  fun w =>
    match conn w with
    | None => ([], w, Raise NameError)
    | Some _ => ([Close; Stdout (Line "PostgreSQL connection is closed" [])], w, Ok tt)
    end.

(** The whole script. *)
Definition script (fuel : nat) : M bool :=
  connect_database ;;
  alter_app_version ;;
  finished <- drain fuel ;;
  if finished : bool then close_connection ;; ret true else ret false.

Definition trace {A} (x : list event * world * result A) : list event :=
  fst (fst x).
Definition final {A} (x : list event * world * result A) : world :=
  snd (fst x).
Definition outcome {A} (x : list event * world * result A) : result A :=
  snd x.

End Script.

Arguments World {sv} queue conn.
Arguments queue {sv} w.
Arguments conn {sv} w.
Arguments trace {sv A} x.
Arguments final {sv A} x.
Arguments outcome {sv A} x.

(* ================================================================== *)
(** ** Reading a trace *)

Definition about (j : nat) (ev : event) : bool :=
  match ev with
  | Msg i _ => Nat.eqb i j
  | _ => false
  end.

(** The events of the message at position [j], in order. *)
Definition events_of (j : nat) (tr : list event) : list event :=
  filter (about j) tr.

Definition is_receive (ev : event) : bool :=
  match ev with
  | Receive _ _ => true
  | _ => false
  end.

(** [a] occurs in [tr] and [b] occurs later. *)
Definition before {A} (a b : A) (tr : list A) : Prop :=
  exists l1 l2 l3, tr = l1 ++ a :: l2 ++ b :: l3.

(** What the run wrote on standard output. *)
Fixpoint stdout (tr : list event) : list line :=
  match tr with
  | [] => []
  | Stdout l :: tr' => l :: stdout tr'
  | Msg _ (Print l) :: tr' => l :: stdout tr'
  | _ :: tr' => stdout tr'
  end.

(** The messages the receive calls of a run returned. *)
Fixpoint received_messages (tr : list event) : list message :=
  match tr with
  | [] => []
  | Receive _ (Messages batch) :: tr' => batch ++ received_messages tr'
  | _ :: tr' => received_messages tr'
  end.

Definition count_events (p : event -> bool) (tr : list event) : nat :=
  List.length (filter p tr).

(** The four counts of section 7 of the specification, read off a trace:
    messages persisted and deleted, messages whose body did not parse,
    messages whose insert or commit failed, messages whose delete
    failed. *)
Record counts := Counts {
  processed : nat;
  skipped_malformed : nat;
  failed_persist : nat;
  failed_ack : nat
}.

Definition cycle_counts (tr : list event) : counts :=
  Counts
    (count_events (fun ev => match ev with Msg _ (Delete _ true) => true | _ => false end) tr)
    (count_events (fun ev => match ev with Msg _ (Loads false) => true | _ => false end) tr)
    (count_events (fun ev => match ev with
                             | Msg _ (Execute _ false) | Msg _ (Commit false) => true
                             | _ => false
                             end) tr)
    (count_events (fun ev => match ev with Msg _ (Delete _ false) => true | _ => false end) tr).

(** A line that carries four integers. *)
Definition reports (c : counts) (l : line) : Prop :=
  args l = [PJson (PInt (Z.of_nat (processed c)));
            PJson (PInt (Z.of_nat (skipped_malformed c)));
            PJson (PInt (Z.of_nat (failed_persist c)));
            PJson (PInt (Z.of_nat (failed_ack c)))].

(** The texts of the script's [print] calls. *)
Definition notices : list string :=
  ["Connected to PostgreSQL database";
   "Error while connecting to PostgreSQL:";
   "Column 'app_version' type altered to VARCHAR";
   "Error while altering column type:";
   "PostgreSQL connection is closed"]%string.

Definition is_lower_hex (c : Z) : bool :=
  ((48 <=? c) && (c <=? 57)) || ((97 <=? c) && (c <=? 102)).

(* ================================================================== *)
(** ** The record the specification describes *)

(** Section 4.4 step 2b in the specification's words: a PII field is
    masked when present and null when absent. *)
Definition spec_masked (field : option pyval) : result pyval :=
  match field with
  | None => Ok PNone
  | Some raw => mask_pii raw
  end.

(** Verbatim copy of a field, null when missing. *)
Definition spec_copied (field : option pyval) : pyval :=
  match field with
  | None => PNone
  | Some v => v
  end.

(** The MaskedRecord of a LoginEvent [d] on day [today]. *)
Definition spec_masked_record (d : pydict) (today : Z) : result row :=
  masked_device_id <~ spec_masked (dict_lookup (py "device_id") d);
  masked_ip <~ spec_masked (dict_lookup (py "ip") d);
  Ok [("user_id", SqlParam (spec_copied (dict_lookup (py "user_id") d)));
      ("device_type", SqlParam (spec_copied (dict_lookup (py "device_type") d)));
      ("masked_ip", SqlParam masked_ip);
      ("masked_device_id", SqlParam masked_device_id);
      ("locale", SqlParam (spec_copied (dict_lookup (py "locale") d)));
      ("app_version", SqlParam (spec_copied (dict_lookup (py "app_version") d)));
      ("create_date", SqlDate today)]%string.

(** The row the loop body hands to the store for a parsed body, lines
    80-116 without the output. *)
Definition insert_row_of (message_body : pyval) (today : Z) : result row :=
  message_body <~ mask_field (py "device_id") message_body;
  message_body <~ mask_field (py "ip") message_body;
  app_version <~ py_get message_body (py "app_version");
  data <~ insert_data message_body app_version;
  values <~ bind_values (st_values insert_query) data today;
  Ok (combine (st_columns insert_query) values).

(* ================================================================== *)
(** ** A small world to run the script in *)

Module Demo.

Record queue_state := QueueState {
  inbox : list (list message);     (* batches not yet delivered *)
  deleted : list pystr             (* handles deleted, newest first *)
}.

Record store_state := StoreState {
  clock : Z;
  pending : list row;              (* inserted, not committed *)
  committed : list row
}.

(** JSON text written with ['] for the double quote. *)
Definition json_text (s : string) : pystr :=
  map (fun c => if c =? 39 then 34 else c) (py s).

Definition body_login : pystr :=
  json_text "{'user_id':'u1','device_id':'d1','ip':'1.2.3.4','locale':'en-US','app_version':'3.1'}".
Definition body_no_pii : pystr := json_text "{'user_id':'u2','app_version':7}".
Definition body_garbage : pystr := py "not json".
Definition body_numeric_ip : pystr := json_text "{'ip':5}".

Definition login : pydict :=
  [(py "user_id", PStr (py "u1")); (py "device_id", PStr (py "d1"));
   (py "ip", PStr (py "1.2.3.4")); (py "locale", PStr (py "en-US"));
   (py "app_version", PStr (py "3.1"))].
Definition no_pii : pydict :=
  [(py "user_id", PStr (py "u2")); (py "app_version", PInt 7)].

(** [json.loads] on the four bodies above; any other text is taken as
    undecodable. *)
Definition loads (body : pystr) : option pyval :=
  if str_eqb body body_login then Some (PDict login)
  else if str_eqb body body_no_pii then Some (PDict no_pii)
  else if str_eqb body body_numeric_ip then Some (PDict [(py "ip", PInt 5)])
  else None.

(** A queue that hands out its batches in order and a store that keeps
    its rows; the three flags say whether inserts, commits and deletes
    work. *)
Definition world_of (insert_ok commit_ok delete_ok : bool) : services :=
  {| Queue := queue_state;
     Store := store_state;
     json_loads := loads;
     receive_message := fun q _ =>
       match inbox q with
       | [] => (NoMessages, q)
       | batch :: later => (Messages batch, QueueState later (deleted q))
       end;
     delete_message := fun q h =>
       if delete_ok then (true, QueueState (inbox q) (h :: deleted q))
       else (false, q);
     connect := Some (StoreState 19999 [] []);
     current_date := clock;
     alter_column := fun s => (true, s);
     insert_row := fun s _ r =>
       if insert_ok then (true, StoreState (clock s) (r :: pending s) (committed s))
       else (false, s);
     commit := fun s =>
       if commit_ok
       then (true, StoreState (clock s) [] (pending s ++ committed s))
       else (false, s) |}.

Definition healthy : services := world_of true true true.

Definition m1 : message := Message body_login (py "h1").
Definition m2 : message := Message body_garbage (py "h2").
Definition m3 : message := Message body_no_pii (py "h3").

(** Before line 31, nothing is bound. *)
Definition start (sv : services) (q : Queue sv) : world sv := World q None.

(** At line 57 after a successful connection. *)
Definition online (sv : services) (q : Queue sv) : world sv :=
  World q (connect sv).

(** The batch of section 8: three messages, the second undecodable. *)
Definition three : queue_state := QueueState [[m1; m2; m3]] [].
Definition empty : queue_state := QueueState [] [].

End Demo.

(* ================================================================== *)
(** ** More worlds: other bodies, no database, a failing queue *)

Module Cases.

Definition body_list : pystr := py "[1]".
Definition body_number : pystr := py "5".
Definition body_string : pystr := Demo.json_text "'xdevice_idx'".

(** [json.loads] on the three bodies above and on those of [Demo]. *)
Definition loads (body : pystr) : option pyval :=
  if str_eqb body body_list then Some (PList [PInt 1])
  else if str_eqb body body_number then Some (PInt 5)
  else if str_eqb body body_string then Some (PStr (py "xdevice_idx"))
  else Demo.loads body.

(** The working services with the larger decoder. *)
Definition decoding : services :=
  {| Queue := Queue Demo.healthy;
     Store := Store Demo.healthy;
     json_loads := loads;
     receive_message := receive_message Demo.healthy;
     delete_message := delete_message Demo.healthy;
     connect := connect Demo.healthy;
     current_date := current_date Demo.healthy;
     alter_column := alter_column Demo.healthy;
     insert_row := insert_row Demo.healthy;
     commit := commit Demo.healthy |}.

(** [psycopg2.connect] raises. *)
Definition offline : services :=
  {| Queue := Queue Demo.healthy;
     Store := Store Demo.healthy;
     json_loads := json_loads Demo.healthy;
     receive_message := receive_message Demo.healthy;
     delete_message := delete_message Demo.healthy;
     connect := None;
     current_date := current_date Demo.healthy;
     alter_column := alter_column Demo.healthy;
     insert_row := insert_row Demo.healthy;
     commit := commit Demo.healthy |}.

(** The queue hands out its batches and then raises instead of
    answering that it is empty. *)
Definition flaky : services :=
  {| Queue := Queue Demo.healthy;
     Store := Store Demo.healthy;
     json_loads := json_loads Demo.healthy;
     receive_message := fun q _ =>
       match Demo.inbox q with
       | [] => (ReceiveError, q)
       | batch :: later =>
           (Messages batch, Demo.QueueState later (Demo.deleted q))
       end;
     delete_message := delete_message Demo.healthy;
     connect := connect Demo.healthy;
     current_date := current_date Demo.healthy;
     alter_column := alter_column Demo.healthy;
     insert_row := insert_row Demo.healthy;
     commit := commit Demo.healthy |}.

Definition m_list : message := Message body_list (py "h5").
Definition m_numeric_ip : message := Message Demo.body_numeric_ip (py "h4").

(** Two batches of one decodable message each. *)
Definition two : Demo.queue_state :=
  Demo.QueueState [[Demo.m1]; [Demo.m3]] [].

Definition one : Demo.queue_state := Demo.QueueState [[Demo.m1]] [].

(** A body whose [ip] is a string holding one lone surrogate, written
    in JSON with the escape of U+D800, and no [device_id]. *)
Definition body_surrogate_ip : pystr := Demo.json_text "{'ip':'\ud800'}".
Definition surrogate_ip : pydict := [(py "ip", PStr [0xD800])].

(** The working services, decoding that body too. *)
Definition lenient : services :=
  {| Queue := Queue Demo.healthy;
     Store := Store Demo.healthy;
     json_loads := fun body =>
       if str_eqb body body_surrogate_ip then Some (PDict surrogate_ip)
       else Demo.loads body;
     receive_message := receive_message Demo.healthy;
     delete_message := delete_message Demo.healthy;
     connect := connect Demo.healthy;
     current_date := current_date Demo.healthy;
     alter_column := alter_column Demo.healthy;
     insert_row := insert_row Demo.healthy;
     commit := commit Demo.healthy |}.

Definition m_surrogate_ip : message := Message body_surrogate_ip (py "h6").

(** The rows of the two decodable bodies on day 19999. *)
Definition login_row : row :=
  Eval vm_compute in
    match insert_row_of (PDict Demo.login) 19999 with
    | Ok r => r
    | Raise _ => []
    end.

Definition no_pii_row : row :=
  Eval vm_compute in
    match insert_row_of (PDict Demo.no_pii) 19999 with
    | Ok r => r
    | Raise _ => []
    end.

End Cases.

(** An event the lines before and after the drain cycle can emit. *)
Definition outside_the_cycle (ev : event) : Prop :=
  match ev with
  | Stdout _ | Alter _ | CommitAlter _ | Close => True
  | Receive _ _ | Msg _ _ => False
  end.

(** The world in which the [for] loop of a drain cycle starts: the one
    the receive loop leaves. *)
Definition loop_start (sv : services) (fuel : nat) (w : world sv) : world sv :=
  final (receive_all sv fuel [] w).

(** The world in which the pass over the message at position [j] starts:
    the one the passes over the messages before it leave. *)
Definition pass_world (sv : services) (msgs : list message) (w0 : world sv)
    (j : nat) : world sv :=
  final (process_messages sv 0 (firstn j msgs) w0).

(** The same inside a drain cycle started in [w]. *)
Definition drain_pass_world (sv : services) (fuel : nat) (w : world sv)
    (j : nat) : world sv :=
  pass_world sv (received_messages (trace (drain sv fuel w)))
    (loop_start sv fuel w) j.

(** The world in which the drain cycle of the script starts: after the
    connection attempt and the ALTER step. *)
Definition cycle_start (sv : services) (w : world sv) : world sv :=
  final (alter_app_version sv (final (connect_database sv w))).

Definition is_print (ev : event) : bool :=
  match ev with
  | Msg _ (Print _) => true
  | _ => false
  end.

Definition is_execute (ev : event) : bool :=
  match ev with
  | Msg _ (Execute _ _) => true
  | _ => false
  end.

Definition is_delete (ev : event) : bool :=
  match ev with
  | Msg _ (Delete _ _) => true
  | _ => false
  end.

(** Lines 126-128. *)
Definition closing : list event :=
  [Close; Stdout (Line "PostgreSQL connection is closed" [])].

Definition is_digest (v : pyval) : Prop :=
  exists h, v = PStr h /\ List.length h = 64%nat /\
            Forall (fun c => is_lower_hex c = true) h.

(* ================================================================== *)
(** ** The shapes a run can take *)

Definition masked_line (d : pydict) : line :=
  Line "Masked message:" [PJson (PDict d)].

(** The events of one pass through the loop body, for the message [m] at
    position [i]. The flag tells whether the body ran to its end. *)
Inductive message_trace (sv : services) (i : nat) (m : message)
  : list event -> bool -> Prop :=
| undecodable :
    json_loads sv (Body m) = None ->
    message_trace sv i m [Msg i (Loads false)] false
| unmaskable v :
    json_loads sv (Body m) = Some v ->
    message_trace sv i m [Msg i (Loads true)] false
| not_inserted v d :
    json_loads sv (Body m) = Some v ->
    message_trace sv i m
      [Msg i (Loads true); Msg i (Print (masked_line d))] false
| insert_failed v d r today :
    json_loads sv (Body m) = Some v ->
    insert_row_of v today = Ok r ->
    message_trace sv i m
      [Msg i (Loads true); Msg i (Print (masked_line d));
       Msg i (Execute r false)] false
| commit_failed v d r today :
    json_loads sv (Body m) = Some v ->
    insert_row_of v today = Ok r ->
    message_trace sv i m
      [Msg i (Loads true); Msg i (Print (masked_line d));
       Msg i (Execute r true); Msg i (Commit false)] false
| delete_failed v d r today :
    json_loads sv (Body m) = Some v ->
    insert_row_of v today = Ok r ->
    message_trace sv i m
      [Msg i (Loads true); Msg i (Print (masked_line d));
       Msg i (Execute r true); Msg i (Commit true);
       Msg i (Delete (ReceiptHandle m) false)] false
| completed v d r today :
    json_loads sv (Body m) = Some v ->
    insert_row_of v today = Ok r ->
    message_trace sv i m
      [Msg i (Loads true); Msg i (Print (masked_line d));
       Msg i (Execute r true); Msg i (Commit true);
       Msg i (Delete (ReceiptHandle m) true)] true.

(** The events of the [for] loop from position [i] on. *)
Inductive loop_trace (sv : services)
  : nat -> list message -> list event -> bool -> Prop :=
| loop_end i : loop_trace sv i [] [] true
| loop_abort i m rest t :
    message_trace sv i m t false ->
    loop_trace sv i (m :: rest) t false
| loop_step i m rest t1 t2 b :
    message_trace sv i m t1 true ->
    loop_trace sv (S i) rest t2 b ->
    loop_trace sv i (m :: rest) (t1 ++ t2) b.

(** A line the script can print: one of its notices, bare or followed by
    an exception, or the masked body of a message. *)
Definition script_line (l : line) : Prop :=
  (In (text l) notices /\ (args l = [] \/ exists e, args l = [PExn e])) \/
  (exists d, l = masked_line d).

(** Some line of the output carries the four counts of the run. *)
Definition reports_cycle_counts (tr : list event) : Prop :=
  exists l, In l (stdout tr) /\ reports (cycle_counts tr) l.

Definition returned {A} (r : result A) : bool :=
  match r with
  | Ok _ => true
  | Raise _ => false
  end.

(* ================================================================== *)
(** ** Strings and dicts *)

Lemma str_eqb_eq (s t : pystr) : str_eqb s t = true <-> s = t.
Proof.
  revert t; induction s as [|c s IH]; intros [|d t]; simpl; split;
    try congruence; try reflexivity.
  - intros H. apply andb_true_iff in H as [Hc Hs].
    apply Z.eqb_eq in Hc. apply IH in Hs. congruence.
  - intros H. injection H as -> ->. rewrite Z.eqb_refl. simpl. now apply IH.
Qed.

Lemma str_eqb_refl (s : pystr) : str_eqb s s = true.
Proof. now apply str_eqb_eq. Qed.

Lemma str_eqb_trans_false (a b c : pystr) :
  str_eqb a b = true -> str_eqb b c = false -> str_eqb a c = false.
Proof.
  intros Hab Hbc. apply str_eqb_eq in Hab. now subst.
Qed.

Lemma dict_lookup_assign_same (k : pystr) (v : pyval) (d : pydict) :
  dict_lookup k (dict_assign k v d) = Some v.
Proof.
  induction d as [|[k' v'] d IH]; simpl.
  - now rewrite str_eqb_refl.
  - destruct (str_eqb k' k) eqn:E; simpl; rewrite E; auto.
Qed.

Lemma dict_lookup_assign_other (k k2 : pystr) (v : pyval) (d : pydict) :
  str_eqb k k2 = false ->
  dict_lookup k2 (dict_assign k v d) = dict_lookup k2 d.
Proof.
  intros Hk. induction d as [|[k' v'] d IH]; simpl.
  - now rewrite Hk.
  - destruct (str_eqb k' k) eqn:E; simpl.
    + now rewrite (str_eqb_trans_false _ _ _ E Hk).
    + now rewrite IH.
Qed.

(** What lines 80-81 (84-85) do to a dict. *)
Lemma mask_field_dict (k : pystr) (d : pydict) :
  mask_field k (PDict d) =
  match dict_lookup k d with
  | None => Ok (PDict d)
  | Some raw => hashed <~ mask_pii raw; Ok (PDict (dict_assign k hashed d))
  end.
Proof.
  unfold mask_field, py_in, py_getitem, py_setitem, rbind.
  destruct (dict_lookup k d); reflexivity.
Qed.

(* ================================================================== *)
(** ** The masking function *)

Lemma nibble_range (x : Z) : 0 <= Z.land x 0xF < 16.
Proof.
  change 0xF with (Z.ones 4). rewrite Z.land_ones by lia.
  apply Z.mod_pos_bound. reflexivity.
Qed.

Lemma hex_digit_lower (n : Z) :
  0 <= n < 16 -> is_lower_hex (Sha256.hex_digit n) = true.
Proof.
  intros H. unfold is_lower_hex, Sha256.hex_digit.
  destruct (n <? 10) eqn:E.
  - apply Z.ltb_lt in E. apply orb_true_iff. left.
    apply andb_true_iff. split; apply Z.leb_le; lia.
  - apply Z.ltb_ge in E. apply orb_true_iff. right.
    apply andb_true_iff. split; apply Z.leb_le; lia.
Qed.

Lemma hex_bytes_lower (bs : list Z) :
  Forall (fun c => is_lower_hex c = true) (flat_map Sha256.hex_byte bs).
Proof.
  induction bs as [|b bs IH]; simpl.
  - constructor.
  - repeat constructor; try (apply hex_digit_lower, nibble_range). exact IH.
Qed.

Lemma hex_bytes_length (bs : list Z) :
  List.length (flat_map Sha256.hex_byte bs) = (2 * List.length bs)%nat.
Proof.
  induction bs as [|b bs IH]; simpl; [reflexivity|]. rewrite IH. lia.
Qed.

Lemma digest_length (msg : list Z) : List.length (Sha256.digest msg) = 32%nat.
Proof. reflexivity. Qed.

Lemma hexdigest_length (msg : list Z) :
  List.length (Sha256.hexdigest msg) = 64%nat.
Proof.
  unfold Sha256.hexdigest. now rewrite hex_bytes_length, digest_length.
Qed.

Lemma utf8_char_scalar (c : Z) :
  is_scalar c = true -> exists bs, utf8_char c = Some bs.
Proof.
  intros H. unfold utf8_char. rewrite H. simpl.
  repeat match goal with |- context [if ?b then _ else _] => destruct b end;
    eauto.
Qed.

Lemma utf8_char_not_scalar (c : Z) :
  is_scalar c = false -> utf8_char c = None.
Proof. intros H. unfold utf8_char. now rewrite H. Qed.

Lemma str_encode_scalar (s : pystr) :
  Forall (fun c => is_scalar c = true) s -> exists bs, str_encode s = Some bs.
Proof.
  induction 1 as [|c s Hc _ [rest IH]]; simpl.
  - eauto.
  - destruct (utf8_char_scalar c Hc) as [bs ->]. rewrite IH. eauto.
Qed.

Lemma str_encode_surrogate (s : pystr) :
  Exists (fun c => is_scalar c = false) s -> str_encode s = None.
Proof.
  induction 1 as [c s Hc | c s _ IH]; simpl.
  - now rewrite (utf8_char_not_scalar c Hc).
  - rewrite IH. now destruct (utf8_char c).
Qed.

(** [hashlib] gives the same digests. *)
Example sha256_constants :
  hd 0 Sha256.round_constants = 0x428a2f98 /\
  last Sha256.round_constants 0 = 0xc67178f2 /\
  List.length Sha256.round_constants = 64%nat /\
  Sha256.ra Sha256.initial = 0x6a09e667 /\
  Sha256.rh Sha256.initial = 0x5be0cd19.
Proof. repeat split. Qed.

Example sha256_empty :
  Sha256.hexdigest [] =
  py "e3b0c44298fc1c149afbf4c8996fb92427ae41e4649b934ca495991b7852b855".
Proof. vm_compute. reflexivity. Qed.

Example sha256_abc :
  option_map Sha256.hexdigest (str_encode (py "abc")) =
  Some (py "ba7816bf8f01cfea414140de5dae2223b00361a396177a9cb410ff61f20015ad").
Proof. vm_compute. reflexivity. Qed.

Example sha256_two_blocks :
  option_map Sha256.hexdigest (str_encode (repeat 97 56)) =
  Some (py "b35439a4ac6f0948b6d6f9e3c6af0f5f590ce20f1bde7090ef7970686ec6738a").
Proof. vm_compute. reflexivity. Qed.

Example sha256_non_ascii :
  option_map Sha256.hexdigest (str_encode [0xE9; 0x20AC; 0x1F600]) =
  Some (py "df9226927fd572c1ee66eec85de1bb139497614899f36e4e90474cb71f6ef9d0").
Proof. vm_compute. reflexivity. Qed.

Lemma mask_pii_unencodable (s : pystr) :
  Exists (fun c => is_scalar c = false) s ->
  mask_pii (PStr s) = Raise UnicodeEncodeError.
Proof.
  intros H. unfold mask_pii. now rewrite (str_encode_surrogate s H).
Qed.

(** C4 (as amended). For every string all of whose code points the UTF-8
    codec accepts (no lone surrogate), the empty string included,
    [mask_pii] returns, and what it returns is the hexadecimal text of the
    SHA-256 digest of the UTF-8 bytes of the string: 64 characters, each
    one of [0-9a-f]. Being a function, [mask_pii] gives equal results on
    equal inputs. *)
Theorem mask_pii_on_encodable_strings (s : pystr) :
  Forall (fun c => is_scalar c = true) s ->
  exists bytes,
    str_encode s = Some bytes /\
    mask_pii (PStr s) = Ok (PStr (Sha256.hexdigest bytes)) /\
    List.length (Sha256.hexdigest bytes) = 64%nat /\
    Forall (fun c => is_lower_hex c = true) (Sha256.hexdigest bytes).
Proof.
  intros Hs. destruct (str_encode_scalar s Hs) as [bytes Hb].
  exists bytes. split; [exact Hb|]. split.
  - unfold mask_pii. now rewrite Hb.
  - split; [apply hexdigest_length | apply hex_bytes_lower].
Qed.

Lemma mask_pii_on_encodable_strings_witness :
  Forall (fun c => is_scalar c = true) (py "1.2.3.4") /\
  exists bytes,
    str_encode (py "1.2.3.4") = Some bytes /\
    mask_pii (PStr (py "1.2.3.4")) = Ok (PStr (Sha256.hexdigest bytes)) /\
    List.length (Sha256.hexdigest bytes) = 64%nat /\
    Forall (fun c => is_lower_hex c = true) (Sha256.hexdigest bytes).
Proof.
  assert (H : Forall (fun c => is_scalar c = true) (py "1.2.3.4"))
    by (repeat constructor).
  split; [exact H | exact (mask_pii_on_encodable_strings (py "1.2.3.4") H)].
Defined.

(** C4 as stated fails: the string made of the single code point U+D800,
    which [json.loads] produces from the JSON text ["\ud800"], makes
    [mask_pii] raise. *)
Lemma mask_pii_raises_on_lone_surrogate :
  mask_pii (PStr [0xD800]) = Raise UnicodeEncodeError.
Proof. reflexivity. Qed.

Example mask_pii_empty :
  mask_pii (PStr []) =
  Ok (PStr (py "e3b0c44298fc1c149afbf4c8996fb92427ae41e4649b934ca495991b7852b855")).
Proof. vm_compute. reflexivity. Qed.

Example mask_pii_of_a_number : mask_pii (PInt 5) = Raise AttributeError.
Proof. reflexivity. Qed.

(* ================================================================== *)
(** ** The row handed to the store *)

Ltac lookups :=
  repeat first
    [ rewrite dict_lookup_assign_same
    | rewrite dict_lookup_assign_other by reflexivity ].

Lemma insert_row_of_dict (d : pydict) (today : Z) :
  insert_row_of (PDict d) today =
  (d1 <~ match dict_lookup (py "device_id") d with
         | None => Ok d
         | Some raw => h <~ mask_pii raw; Ok (dict_assign (py "device_id") h d)
         end;
   d2 <~ match dict_lookup (py "ip") d1 with
         | None => Ok d1
         | Some raw => h <~ mask_pii raw; Ok (dict_assign (py "ip") h d1)
         end;
   Ok [("user_id", SqlParam (spec_copied (dict_lookup (py "user_id") d2)));
       ("device_type", SqlParam (spec_copied (dict_lookup (py "device_type") d2)));
       ("masked_ip", SqlParam (spec_copied (dict_lookup (py "ip") d2)));
       ("masked_device_id", SqlParam (spec_copied (dict_lookup (py "device_id") d2)));
       ("locale", SqlParam (spec_copied (dict_lookup (py "locale") d2)));
       ("app_version", SqlParam (spec_copied (dict_lookup (py "app_version") d2)));
       ("create_date", SqlDate today)]%string).
Proof.
  unfold insert_row_of. rewrite mask_field_dict.
  destruct (dict_lookup (py "device_id") d) as [raw|];
    [destruct (mask_pii raw) as [h|e]; [|reflexivity]|];
    cbn [rbind]; rewrite mask_field_dict;
    match goal with
    | |- context [dict_lookup (py "ip") ?x] =>
        destruct (dict_lookup (py "ip") x) as [raw2|];
        [destruct (mask_pii raw2) as [h2|e2]; [|reflexivity]|]
    end; reflexivity.
Qed.

Lemma insert_row_matches_spec (d : pydict) (today : Z) :
  insert_row_of (PDict d) today = spec_masked_record d today.
Proof.
  rewrite insert_row_of_dict. unfold spec_masked_record, spec_masked.
  destruct (dict_lookup (py "device_id") d) as [raw|] eqn:Hdev.
  - destruct (mask_pii raw) as [h|e]; [|reflexivity]. cbn [rbind]. lookups.
    destruct (dict_lookup (py "ip") d) as [raw2|] eqn:Hip.
    + destruct (mask_pii raw2) as [h2|e2]; [|reflexivity]. cbn [rbind].
      lookups. reflexivity.
    + cbn [rbind]. lookups. rewrite Hip. reflexivity.
  - cbn [rbind].
    destruct (dict_lookup (py "ip") d) as [raw2|] eqn:Hip.
    + destruct (mask_pii raw2) as [h2|e2]; [|reflexivity]. cbn [rbind].
      lookups. rewrite Hdev. reflexivity.
    + cbn [rbind]. rewrite Hdev, Hip. reflexivity.
Qed.

Lemma spec_masked_record_masked_columns (d : pydict) (today : Z) (r : row) :
  spec_masked_record d today = Ok r ->
  (exists dev, spec_masked (dict_lookup (py "device_id") d) = Ok dev /\
               column "masked_device_id" r = Some (SqlParam dev)) /\
  (exists ip, spec_masked (dict_lookup (py "ip") d) = Ok ip /\
              column "masked_ip" r = Some (SqlParam ip)).
Proof.
  unfold spec_masked_record.
  destruct (spec_masked (dict_lookup (py "device_id") d)) as [dev|];
    [|discriminate].
  destruct (spec_masked (dict_lookup (py "ip") d)) as [ip|]; [|discriminate].
  cbn [rbind]. intros [= <-]. split; eexists; split; reflexivity.
Qed.

(** The example of section 8 of the specification. *)
Example section8_record :
  insert_row_of (PDict Demo.login) 19999 =
  Ok [("user_id", SqlParam (PStr (py "u1")));
      ("device_type", SqlParam PNone);
      ("masked_ip", SqlParam (PStr (py
         "6694f83c9f476da31f5df6bcc520034e7e57d421d247b9d34f49edbfc84a764c")));
      ("masked_device_id", SqlParam (PStr (py
         "8b53639f152c8fc6ef30802fde462ba0be9cf085f7580dc69efd72e002abbb35")));
      ("locale", SqlParam (PStr (py "en-US")));
      ("app_version", SqlParam (PStr (py "3.1")));
      ("create_date", SqlDate 19999)]%string.
Proof. vm_compute. reflexivity. Qed.

Example numeric_ip_raises :
  insert_row_of (PDict [(py "ip", PInt 5)]) 19999 = Raise AttributeError.
Proof. reflexivity. Qed.

(* ================================================================== *)
(** ** One pass through the loop body *)

Ltac run_step :=
  match goal with
  | |- context [match json_loads ?sv ?b with _ => _ end] =>
      let E := fresh "Hloads" in destruct (json_loads sv b) eqn:E
  | |- context [match mask_field ?k ?v with _ => _ end] =>
      let E := fresh "Hmask" in destruct (mask_field k v) eqn:E
  | |- context [match py_get ?v ?k with _ => _ end] =>
      let E := fresh "Hget" in destruct (py_get v k) eqn:E
  | |- context [match conn ?w with _ => _ end] =>
      let E := fresh "Hconn" in destruct (conn w) eqn:E
  | |- context [insert_row ?sv ?s ?t ?r] =>
      let E := fresh "Hins" in destruct (insert_row sv s t r) as [[|] ?] eqn:E
  | |- context [commit ?sv ?s] =>
      let E := fresh "Hcommit" in destruct (commit sv s) as [[|] ?] eqn:E
  | |- context [delete_message ?sv ?q ?h] =>
      let E := fresh "Hdel" in destruct (delete_message sv q h) as [[|] ?] eqn:E
  end.

Lemma py_get_dict (v : pyval) (k : pystr) (x : pyval) :
  py_get v k = Ok x -> exists d, v = PDict d.
Proof. destruct v; simpl; try discriminate. eauto. Qed.

Lemma insert_row_of_steps (v v1 : pyval) (d : pydict) (av : pyval) (today : Z) :
  mask_field (py "device_id") v = Ok v1 ->
  mask_field (py "ip") v1 = Ok (PDict d) ->
  py_get (PDict d) (py "app_version") = Ok av ->
  insert_row_of v today =
  Ok [("user_id", SqlParam (spec_copied (dict_lookup (py "user_id") d)));
      ("device_type", SqlParam (spec_copied (dict_lookup (py "device_type") d)));
      ("masked_ip", SqlParam (spec_copied (dict_lookup (py "ip") d)));
      ("masked_device_id", SqlParam (spec_copied (dict_lookup (py "device_id") d)));
      ("locale", SqlParam (spec_copied (dict_lookup (py "locale") d)));
      ("app_version", SqlParam av);
      ("create_date", SqlDate today)]%string.
Proof.
  intros H1 H2 H3. unfold insert_row_of.
  rewrite H1. cbn [rbind]. rewrite H2. cbn [rbind]. rewrite H3. reflexivity.
Qed.

Lemma process_message_trace (sv : services) (i : nat) (m : message) (w : world sv) :
  message_trace sv i m (trace (process_message sv i m w))
    (returned (outcome (process_message sv i m w))).
Proof.
  unfold process_message, bind, lift, emit, loads_body, cursor_execute,
    connection_commit, sqs_delete_message, trace, outcome.
  run_step; cbn; [|now apply undecodable].
  run_step; cbn; [|now eapply unmaskable; eauto].
  run_step; cbn; [|now eapply unmaskable; eauto].
  run_step; cbn; [|now eapply unmaskable; eauto].
  destruct (py_get_dict _ _ _ Hget) as [d ->]. cbn.
  run_step; cbn; [|now eapply not_inserted; eauto].
  pose proof (insert_row_of_steps _ _ _ _ (current_date sv s) Hmask Hmask0 Hget)
    as Hrow.
  run_step; cbn; [|now eapply insert_failed; [exact Hloads | exact Hrow]].
  run_step; cbn; [|now eapply commit_failed; [exact Hloads | exact Hrow]].
  run_step; cbn;
    [ now eapply completed; [exact Hloads | exact Hrow]
    | now eapply delete_failed; [exact Hloads | exact Hrow] ].
Qed.

Ltac in_trace H :=
  repeat (destruct H as [H|H]; [try discriminate H|]); try contradiction H.

(** The insert is reached with the row [insert_row_of] computes, on the
    date of the store the loop body started with. *)
Lemma process_message_execute (sv : services) (i : nat) (m : message)
    (w : world sv) (r : row) (ok : bool) :
  In (Msg i (Execute r ok)) (trace (process_message sv i m w)) ->
  exists v s,
    json_loads sv (Body m) = Some v /\ conn w = Some s /\
    insert_row_of v (current_date sv s) = Ok r /\
    ok = fst (insert_row sv s "user_logins" r).
Proof.
  unfold process_message, bind, lift, emit, loads_body, cursor_execute,
    connection_commit, sqs_delete_message, trace, outcome.
  run_step; cbn; [|intros H; in_trace H].
  run_step; cbn; [|intros H; in_trace H].
  run_step; cbn; [|intros H; in_trace H].
  run_step; cbn; [|intros H; in_trace H].
  destruct (py_get_dict _ _ _ Hget) as [d ->]. cbn.
  run_step; cbn; [|intros H; in_trace H].
  pose proof (insert_row_of_steps _ _ _ _ (current_date sv s) Hmask Hmask0 Hget)
    as Hrow.
  cbn in Hrow.
  run_step; cbn.
  - run_step; cbn; [run_step; cbn|]; intros H; in_trace H;
      injection H as <- <-; exists p, s; rewrite Hins; now auto.
  - intros H; in_trace H.
    injection H as <- <-; exists p, s; rewrite Hins; now auto.
Qed.

Lemma process_message_reaches_execute (sv : services) (i : nat) (m : message)
    (w : world sv) (v : pyval) (s : Store sv) (r : row) :
  json_loads sv (Body m) = Some v ->
  conn w = Some s ->
  insert_row_of v (current_date sv s) = Ok r ->
  exists ok, In (Msg i (Execute r ok)) (trace (process_message sv i m w)).
Proof.
  intros Hloads Hconn Hrow.
  unfold process_message, bind, lift, emit, loads_body, cursor_execute,
    connection_commit, sqs_delete_message, trace, outcome.
  rewrite Hloads. cbn. unfold insert_row_of in Hrow.
  destruct (mask_field (py "device_id") v) as [v1|] eqn:H1;
    cbn [rbind] in Hrow; [|discriminate].
  destruct (mask_field (py "ip") v1) as [v2|] eqn:H2;
    cbn [rbind] in Hrow; [|discriminate].
  destruct (py_get v2 (py "app_version")) as [a|] eqn:H3;
    cbn [rbind] in Hrow; [|discriminate].
  destruct (py_get_dict _ _ _ H3) as [d ->].
  cbn in H3. injection H3 as <-.
  cbn in Hrow. injection Hrow as <-.
  cbn in H1, H2. rewrite H1. cbn. rewrite H2. cbn. rewrite Hconn. cbn.
  run_step; cbn; [run_step; cbn; [run_step; cbn|]|]; eexists; cbn; eauto 6.
Qed.

(* ================================================================== *)
(** ** The loop *)

Lemma process_messages_trace (sv : services) (msgs : list message) :
  forall (i : nat) (w : world sv),
    loop_trace sv i msgs (trace (process_messages sv i msgs w))
      (returned (outcome (process_messages sv i msgs w))).
Proof.
  induction msgs as [|m rest IH]; intros i w.
  - apply loop_end.
  - cbn [process_messages]. unfold bind.
    pose proof (process_message_trace sv i m w) as Hm.
    destruct (process_message sv i m w) as [[t1 w1] [[]|e]]; cbn in Hm.
    + specialize (IH (S i) w1).
      destruct (process_messages sv (S i) rest w1) as [[t2 w2] r2].
      cbn in IH |- *. now apply loop_step.
    + cbn. now apply loop_abort.
Qed.

Lemma before_filter {A} (f : A -> bool) (a b : A) (l : list A) :
  before a b (filter f l) -> before a b l.
Proof.
  intros (l1 & l2 & l3 & H). revert l1 H.
  induction l as [|x l IH]; intros l1 H; simpl in H.
  - destruct l1; discriminate.
  - destruct (f x).
    + destruct l1 as [|y l1]; simpl in H; injection H as -> H.
      * assert (Hb : In b (filter f l)).
        { rewrite H. apply in_or_app. right. now left. }
        apply filter_In in Hb as [Hb _].
        apply in_split in Hb as (p & q & ->).
        now exists [], p, q.
      * destruct (IH l1 H) as (p & q & s & ->).
        now exists (y :: p), q, s.
    + destruct (IH l1 H) as (p & q & s & ->).
      now exists (x :: p), q, s.
Qed.

Lemma message_trace_about (sv : services) (i : nat) (m : message)
    (t : list event) (b : bool) :
  message_trace sv i m t b -> Forall (fun ev => exists a, ev = Msg i a) t.
Proof. destruct 1; repeat constructor; eauto. Qed.

Lemma events_of_same (i : nat) (t : list event) :
  Forall (fun ev => exists a, ev = Msg i a) t -> events_of i t = t.
Proof.
  unfold events_of.
  induction 1 as [|ev t [a ->] _ IH]; simpl; [reflexivity|].
  rewrite Nat.eqb_refl. now f_equal.
Qed.

Lemma events_of_other (j : nat) (t : list event) :
  Forall (fun ev => exists k a, ev = Msg k a /\ k <> j) t -> events_of j t = [].
Proof.
  unfold events_of.
  induction 1 as [|ev t (k & a & -> & Hk) _ IH]; simpl; [reflexivity|].
  apply Nat.eqb_neq in Hk. now rewrite Hk.
Qed.

Lemma loop_trace_index (sv : services) (i : nat) (msgs : list message)
    (t : list event) (b : bool) :
  loop_trace sv i msgs t b ->
  Forall (fun ev => exists k a,
            ev = Msg k a /\ (i <= k < i + List.length msgs)%nat) t.
Proof.
  induction 1 as [i | i m rest t Hm | i m rest t1 t2 b Hm _ IH].
  - constructor.
  - apply message_trace_about in Hm. eapply Forall_impl; [|exact Hm].
    intros ev [a ->]. exists i, a. simpl. split; [reflexivity | lia].
  - apply Forall_app. split.
    + apply message_trace_about in Hm. eapply Forall_impl; [|exact Hm].
      intros ev [a ->]. exists i, a. simpl. split; [reflexivity | lia].
    + eapply Forall_impl; [|exact IH].
      intros ev (k & a & -> & Hk). exists k, a. simpl. split; [reflexivity | lia].
Qed.

(** The events about position [j] are one pass of the loop body over
    the message at that position, or there are none. *)
Lemma loop_events_of (sv : services) (i : nat) (msgs : list message)
    (t : list event) (b : bool) (j : nat) :
  loop_trace sv i msgs t b ->
  events_of j t = [] \/
  exists m b', (i <= j)%nat /\ nth_error msgs (j - i) = Some m /\
               message_trace sv j m (events_of j t) b'.
Proof.
  induction 1 as [i | i m rest t Hm | i m rest t1 t2 b Hm Hrest IH].
  - now left.
  - destruct (Nat.eq_dec j i) as [->|Hji].
    + right. exists m, false. rewrite Nat.sub_diag.
      rewrite (events_of_same i t) by (eapply message_trace_about; eauto).
      auto.
    + left. apply events_of_other. apply message_trace_about in Hm.
      eapply Forall_impl; [|exact Hm]. intros ev [a ->]. eauto.
  - unfold events_of. rewrite filter_app. fold (events_of j t1) (events_of j t2).
    destruct (Nat.eq_dec j i) as [->|Hji].
    + right. exists m, true. rewrite Nat.sub_diag.
      rewrite (events_of_same i t1) by (eapply message_trace_about; eauto).
      rewrite (events_of_other i t2), app_nil_r; [auto|].
      apply loop_trace_index in Hrest. eapply Forall_impl; [|exact Hrest].
      intros ev (k & a & -> & Hk). exists k, a. split; [reflexivity | lia].
    + rewrite (events_of_other j t1); simpl.
      * destruct IH as [IH | (m' & b' & Hle & Hnth & Hmt)]; [now left|].
        right. exists m', b'. split; [lia|]. split; [|exact Hmt].
        replace (j - i)%nat with (S (j - S i)) by lia. exact Hnth.
      * apply message_trace_about in Hm. eapply Forall_impl; [|exact Hm].
        intros ev [a ->]. eauto.
Qed.

(* ================================================================== *)
(** ** The receive loop and the drain cycle *)

Lemma received_messages_app (t1 t2 : list event) :
  received_messages (t1 ++ t2) = received_messages t1 ++ received_messages t2.
Proof.
  induction t1 as [|ev t1 IH]; simpl; [reflexivity|].
  destruct ev as [max [| batch |] | | | | |]; auto.
  now rewrite IH, app_assoc.
Qed.

Lemma received_messages_none (t : list event) :
  Forall (fun ev => is_receive ev = false) t -> received_messages t = [].
Proof.
  induction 1 as [|ev t Hev _ IH]; simpl; [reflexivity|].
  destruct ev as [max resp | | | | |]; try discriminate; auto.
Qed.

Lemma events_of_receives (j : nat) (t : list event) :
  Forall (fun ev => exists resp, ev = Receive 10 resp) t -> events_of j t = [].
Proof.
  unfold events_of.
  induction 1 as [|ev t [resp ->] _ IH]; simpl; auto.
Qed.

Lemma receive_all_shape (sv : services) (fuel : nat) :
  forall (acc : list message) (w : world sv),
    let x := receive_all sv fuel acc w in
    Forall (fun ev => exists resp, ev = Receive 10 resp) (trace x) /\
    conn (final x) = conn w /\
    match outcome x with
    | Ok (Some msgs) =>
        msgs = acc ++ received_messages (trace x) /\
        exists t, trace x = t ++ [Receive 10 NoMessages] /\
                  ~ In (Receive 10 NoMessages) t
    | _ => ~ In (Receive 10 NoMessages) (trace x)
    end.
Proof.
  induction fuel as [|fuel IH]; intros acc w; cbn.
  - repeat split; auto.
  - unfold bind, sqs_receive_message.
    destruct (receive_message sv (queue w) 10) as [[| batch |] q']; cbn.
    + repeat split; eauto.
      * now rewrite app_nil_r.
      * exists []. split; [reflexivity | intros []].
    + specialize (IH (acc ++ batch) (World q' (conn w))). cbn in IH.
      destruct (receive_all sv fuel (acc ++ batch) (World q' (conn w)))
        as [[t2 w2] r2]; cbn in IH |- *.
      destruct IH as (Hall & Hconn & Hout). repeat split; eauto.
      destruct r2 as [[msgs|]|e].
      * destruct Hout as [-> (t & -> & Hnot)]. split.
        -- now rewrite app_assoc.
        -- exists (Receive 10 (Messages batch) :: t). split; [reflexivity|].
           intros [H|H]; [discriminate | auto].
      * intros [H|H]; [discriminate | auto].
      * intros [H|H]; [discriminate | auto].
    + repeat split; eauto. intros [H|[]]. discriminate.
Qed.

Lemma drain_shape (sv : services) (fuel : nat) (w : world sv) :
  exists recv rest,
    trace (drain sv fuel w) = recv ++ rest /\
    Forall (fun ev => exists resp, ev = Receive 10 resp) recv /\
    ((rest = [] /\ ~ In (Receive 10 NoMessages) recv /\
      outcome (drain sv fuel w) <> Ok true) \/
     (exists t w',
        (recv = t ++ [Receive 10 NoMessages] /\
         ~ In (Receive 10 NoMessages) t) /\
        conn w' = conn w /\
        rest = trace (process_messages sv 0 (received_messages recv) w') /\
        outcome (drain sv fuel w) =
        match outcome (process_messages sv 0 (received_messages recv) w') with
        | Ok _ => Ok true
        | Raise e => Raise e
        end)).
Proof.
  unfold drain, bind.
  pose proof (receive_all_shape sv fuel [] w) as H. cbn in H.
  destruct (receive_all sv fuel [] w) as [[t1 w1] [[msgs|]|e]]; cbn in H;
    destruct H as (Hall & Hconn & Hout).
  - destruct Hout as [-> (t & Ht & Hnot)].
    destruct (process_messages sv 0 (received_messages t1) w1)
      as [[t2 w2] r2] eqn:E.
    exists t1, t2. split; [|split; [exact Hall|]].
    + destruct r2; cbn; now rewrite ?app_nil_r.
    + right. exists t, w1. rewrite E. cbn. repeat split; auto.
      destruct r2; reflexivity.
  - exists t1, []. cbn. repeat split; auto. left. repeat split; auto.
    discriminate.
  - exists t1, []. cbn. rewrite app_nil_r. repeat split; auto.
    left. repeat split; auto. discriminate.
Qed.

Lemma loop_trace_no_receive (sv : services) (i : nat) (msgs : list message)
    (t : list event) (b : bool) :
  loop_trace sv i msgs t b -> Forall (fun ev => is_receive ev = false) t.
Proof.
  intros H. apply loop_trace_index in H. eapply Forall_impl; [|exact H].
  now intros ev (k & a & -> & _).
Qed.

(** In a drain cycle, the events about position [j] are one pass of the
    loop body over the [j]-th received message, or there are none. *)
Lemma drain_events_of (sv : services) (fuel : nat) (w : world sv) (j : nat) :
  events_of j (trace (drain sv fuel w)) = [] \/
  exists m b,
    nth_error (received_messages (trace (drain sv fuel w))) j = Some m /\
    message_trace sv j m (events_of j (trace (drain sv fuel w))) b.
Proof.
  destruct (drain_shape sv fuel w) as (recv & rest & -> & Hrecv & Hcase).
  unfold events_of. rewrite filter_app.
  fold (events_of j recv) (events_of j rest).
  rewrite (events_of_receives j recv Hrecv). cbn [app].
  destruct Hcase as [(-> & _) | (t & w' & _ & _ & Hrest & _)]; [now left|].
  pose proof (process_messages_trace sv (received_messages recv) 0 w') as Hloop.
  rewrite <- Hrest in Hloop.
  rewrite received_messages_app,
    (received_messages_none rest (loop_trace_no_receive _ _ _ _ _ Hloop)),
    app_nil_r.
  destruct (loop_events_of sv 0 _ _ _ j Hloop) as [H | (m & b & _ & Hnth & Hmt)];
    [now left|].
  right. exists m, b. now rewrite Nat.sub_0_r in Hnth.
Qed.

(* ================================================================== *)
(** ** Insert, commit and delete of one message *)

Lemma in_events_of (j : nat) (a : action) (t : list event) :
  In (Msg j a) t <-> In (Msg j a) (events_of j t).
Proof.
  unfold events_of. rewrite filter_In. simpl. rewrite Nat.eqb_refl. tauto.
Qed.

Lemma message_trace_commit (sv : services) (i : nat) (m : message)
    (t : list event) (b : bool) :
  message_trace sv i m t b ->
  In (Msg i (Commit true)) t ->
  exists ok, In (Msg i (Delete (ReceiptHandle m) ok)) t.
Proof.
  intros Hmt Hin. destruct Hmt; in_trace Hin; eexists; simpl; eauto 6.
Qed.

Lemma message_trace_failed (sv : services) (i : nat) (m : message)
    (t : list event) (b : bool) :
  message_trace sv i m t b ->
  (exists r, In (Msg i (Execute r false)) t) \/ In (Msg i (Commit false)) t ->
  forall h ok, ~ In (Msg i (Delete h ok)) t.
Proof.
  intros Hmt [[r' Hin]|Hin] h ok Hd; destruct Hmt; in_trace Hin; in_trace Hd.
Qed.

Lemma message_trace_undecodable (sv : services) (i : nat) (m : message)
    (t : list event) (b : bool) :
  message_trace sv i m t b ->
  json_loads sv (Body m) = None ->
  t = [Msg i (Loads false)] /\ b = false.
Proof. intros Hmt Hnone. destruct Hmt; try congruence. auto. Qed.

(** C3. In a drain cycle, for a received message whose body
    [json.loads] rejects, no insert is executed, nothing is committed and
    no delete is called: the only event about it is the failed parse. *)
Theorem undecodable_message_is_retained (sv : services) (fuel : nat)
    (w : world sv) (j : nat) (m : message) :
  nth_error (received_messages (trace (drain sv fuel w))) j = Some m ->
  json_loads sv (Body m) = None ->
  (forall a, In (Msg j a) (trace (drain sv fuel w)) -> a = Loads false) /\
  (forall r ok, ~ In (Msg j (Execute r ok)) (trace (drain sv fuel w))) /\
  (forall ok, ~ In (Msg j (Commit ok)) (trace (drain sv fuel w))) /\
  (forall h ok, ~ In (Msg j (Delete h ok)) (trace (drain sv fuel w))).
Proof.
  intros Hnth Hloads.
  assert (Hall : forall a, In (Msg j a) (trace (drain sv fuel w)) ->
                           a = Loads false).
  { intros a H. apply in_events_of in H.
    destruct (drain_events_of sv fuel w j) as [Hnone | (m' & b & Hnth' & Hmt)].
    - rewrite Hnone in H. destruct H.
    - rewrite Hnth in Hnth'. injection Hnth' as <-.
      destruct (message_trace_undecodable _ _ _ _ _ Hmt Hloads) as [Ht _].
      rewrite Ht in H. destruct H as [H|[]]. now injection H. }
  split; [exact Hall|].
  repeat split; intros; intros H; apply Hall in H; discriminate.
Qed.

Ltac in_list := repeat first [left; reflexivity | right].

Lemma undecodable_message_is_retained_witness :
  nth_error (received_messages
               (trace (drain Demo.healthy 5
                         (Demo.online Demo.healthy Demo.three)))) 1
  = Some Demo.m2 /\
  json_loads Demo.healthy (Body Demo.m2) = None /\
  forall h ok,
    ~ In (Msg 1 (Delete h ok))
        (trace (drain Demo.healthy 5 (Demo.online Demo.healthy Demo.three))).
Proof.
  assert (H1 : nth_error (received_messages
                 (trace (drain Demo.healthy 5
                           (Demo.online Demo.healthy Demo.three)))) 1
               = Some Demo.m2) by reflexivity.
  assert (H2 : json_loads Demo.healthy (Body Demo.m2) = None) by reflexivity.
  split; [exact H1|]. split; [exact H2|].
  exact (proj2 (proj2 (proj2
           (undecodable_message_is_retained Demo.healthy 5
              (Demo.online Demo.healthy Demo.three) 1 Demo.m2 H1 H2)))).
Defined.

(* ================================================================== *)
(** ** A failure ends the loop *)

Lemma loop_trace_stops (sv : services) (i : nat) (msgs : list message)
    (t : list event) (b : bool) :
  loop_trace sv i msgs t b ->
  forall k m,
    nth_error msgs k = Some m ->
    json_loads sv (Body m) = None ->
    b = false /\
    Forall (fun ev => exists j a, ev = Msg j a /\ (j <= i + k)%nat) t.
Proof.
  induction 1 as [i | i m0 rest t Hm | i m0 rest t1 t2 b Hm _ IH];
    intros k m Hnth Hloads.
  - destruct k; discriminate.
  - split; [reflexivity|].
    apply message_trace_about in Hm. eapply Forall_impl; [|exact Hm].
    intros ev [a ->]. exists i, a. split; [reflexivity | lia].
  - destruct k as [|k]; simpl in Hnth.
    + injection Hnth as ->.
      destruct (message_trace_undecodable _ _ _ _ _ Hm Hloads) as [_ H].
      discriminate.
    + destruct (IH k m Hnth Hloads) as [-> Hall]. split; [reflexivity|].
      apply Forall_app. split.
      * apply message_trace_about in Hm. eapply Forall_impl; [|exact Hm].
        intros ev [a ->]. exists i, a. split; [reflexivity | lia].
      * eapply Forall_impl; [|exact Hall].
        intros ev (j & a & -> & Hj). exists j, a. split; [reflexivity | lia].
Qed.

(** C2 (as amended). The loop has no per-message error boundary: the
    first exception ends it. If the body of the received message at
    position [k] is undecodable, no message after position [k] is parsed,
    inserted or deleted, the cycle does not complete, and once the
    receive loop has ended the cycle ends with an exception. *)
Theorem undecodable_message_ends_the_cycle (sv : services) (fuel : nat)
    (w : world sv) (k : nat) (m : message) :
  nth_error (received_messages (trace (drain sv fuel w))) k = Some m ->
  json_loads sv (Body m) = None ->
  (forall j a, In (Msg j a) (trace (drain sv fuel w)) -> (j <= k)%nat) /\
  outcome (drain sv fuel w) <> Ok true /\
  (In (Receive 10 NoMessages) (trace (drain sv fuel w)) ->
   exists e, outcome (drain sv fuel w) = Raise e).
Proof.
  intros Hnth Hloads.
  destruct (drain_shape sv fuel w) as (recv & rest & Htr & Hrecv & Hcase).
  rewrite Htr in *.
  assert (Hno : forall j a, ~ In (Msg j a) recv).
  { intros j a H. rewrite Forall_forall in Hrecv.
    destruct (Hrecv _ H) as [resp Hev]. discriminate. }
  destruct Hcase as [(-> & Hnever & Hout) | (t & w' & _ & _ & Hrest & Hout)].
  - rewrite app_nil_r in *. repeat split; auto.
    + intros j a H. now apply Hno in H.
    + intros H. contradiction.
  - pose proof (process_messages_trace sv (received_messages recv) 0 w')
      as Hloop.
    rewrite <- Hrest in Hloop.
    rewrite received_messages_app,
      (received_messages_none rest (loop_trace_no_receive _ _ _ _ _ Hloop)),
      app_nil_r in Hnth.
    destruct (loop_trace_stops _ _ _ _ _ Hloop k m Hnth Hloads) as [Hb Hall].
    destruct (outcome (process_messages sv 0 (received_messages recv) w'))
      as [[]|e]; [discriminate|].
    repeat split.
    + intros j a H. apply in_app_or in H as [H|H]; [now apply Hno in H|].
      rewrite Forall_forall in Hall.
      destruct (Hall _ H) as (j' & a' & Heq & Hle). injection Heq as <- <-.
      exact Hle.
    + rewrite Hout. discriminate.
    + intros _. exists e. exact Hout.
Qed.

Lemma undecodable_message_ends_the_cycle_witness :
  nth_error (received_messages
               (trace (drain Demo.healthy 5
                         (Demo.online Demo.healthy Demo.three)))) 1
  = Some Demo.m2 /\
  json_loads Demo.healthy (Body Demo.m2) = None /\
  (forall j a,
     In (Msg j a)
        (trace (drain Demo.healthy 5 (Demo.online Demo.healthy Demo.three))) ->
     (j <= 1)%nat) /\
  outcome (drain Demo.healthy 5 (Demo.online Demo.healthy Demo.three))
  <> Ok true /\
  (In (Receive 10 NoMessages)
      (trace (drain Demo.healthy 5 (Demo.online Demo.healthy Demo.three))) ->
   exists e,
     outcome (drain Demo.healthy 5 (Demo.online Demo.healthy Demo.three))
     = Raise e).
Proof.
  assert (H1 : nth_error (received_messages
                 (trace (drain Demo.healthy 5
                           (Demo.online Demo.healthy Demo.three)))) 1
               = Some Demo.m2) by reflexivity.
  assert (H2 : json_loads Demo.healthy (Body Demo.m2) = None) by reflexivity.
  split; [exact H1|]. split; [exact H2|].
  exact (undecodable_message_ends_the_cycle Demo.healthy 5
           (Demo.online Demo.healthy Demo.three) 1 Demo.m2 H1 H2).
Defined.

(** C2 as stated fails. With every service working and a batch of three
    whose second body is undecodable, the first message is inserted,
    committed and deleted, and the cycle then ends with
    [JSONDecodeError]: the third message is never parsed, so it is
    neither persisted nor deleted. One row is committed and one handle is
    deleted. *)
Lemma third_message_is_not_processed :
  let run := drain Demo.healthy 5 (Demo.online Demo.healthy Demo.three) in
  received_messages (trace run) = [Demo.m1; Demo.m2; Demo.m3] /\
  json_loads Demo.healthy (Body Demo.m1) <> None /\
  json_loads Demo.healthy (Body Demo.m2) = None /\
  json_loads Demo.healthy (Body Demo.m3) <> None /\
  In (Msg 0 (Delete (ReceiptHandle Demo.m1) true)) (trace run) /\
  events_of 1 (trace run) = [Msg 1 (Loads false)] /\
  events_of 2 (trace run) = [] /\
  outcome run = Raise JSONDecodeError /\
  Demo.deleted (queue (final run)) = [ReceiptHandle Demo.m1] /\
  option_map (fun s => List.length (Demo.committed s)) (conn (final run))
  = Some 1%nat.
Proof.
  vm_compute. repeat split; try discriminate. in_list.
Qed.

(** With a store that refuses inserts the first message is not deleted
    and the cycle ends there. *)
Example insert_failure_keeps_the_message :
  let run := drain (Demo.world_of false true true) 5
               (Demo.online (Demo.world_of false true true) Demo.three) in
  events_of 0 (trace run) <> [] /\
  (forall h ok, ~ In (Msg 0 (Delete h ok)) (trace run)) /\
  Demo.deleted (queue (final run)) = [] /\
  outcome run = Raise DatabaseError.
Proof.
  vm_compute. repeat split; try discriminate.
  intros h ok H. in_trace H.
Qed.

(** With a queue that refuses deletes the row stays committed and the
    cycle ends with the queue's error. *)
Example delete_failure_keeps_the_row :
  let run := drain (Demo.world_of true true false) 5
               (Demo.online (Demo.world_of true true false) Demo.three) in
  In (Msg 0 (Delete (py "h1") false)) (trace run) /\
  option_map (fun s => List.length (Demo.committed s)) (conn (final run))
  = Some 1%nat /\
  Demo.deleted (queue (final run)) = [] /\
  outcome run = Raise ClientError.
Proof.
  vm_compute. repeat split. in_list.
Qed.

(* ================================================================== *)
(** ** Receiving comes first *)

(** Once the receive loop has ended within the fuel, more fuel changes
    nothing. *)
Lemma receive_all_more_fuel (sv : services) (fuel extra : nat) :
  forall (acc : list message) (w : world sv),
    outcome (receive_all sv fuel acc w) <> Ok None ->
    receive_all sv (fuel + extra) acc w = receive_all sv fuel acc w.
Proof.
  induction fuel as [|fuel IH]; intros acc w; cbn.
  - intros H. now contradiction H.
  - unfold bind, sqs_receive_message.
    destruct (receive_message sv (queue w) 10) as [[| batch |] q']; cbn; auto.
    intros H. rewrite IH; [reflexivity|].
    destruct (receive_all sv fuel (acc ++ batch) (World q' (conn w)))
      as [[t2 w2] r2]. exact H.
Qed.


(** C10. If the first receive call returns no messages, the cycle is
    that one call: no insert, no commit and no delete is made, the store
    is the one the cycle started with and the queue is as that receive
    call left it. *)
Theorem empty_drain_changes_nothing (sv : services) (fuel : nat)
    (w : world sv) (q' : Queue sv) :
  receive_message sv (queue w) 10 = (NoMessages, q') ->
  trace (drain sv (S fuel) w) = [Receive 10 NoMessages] /\
  conn (final (drain sv (S fuel) w)) = conn w /\
  queue (final (drain sv (S fuel) w)) = q' /\
  outcome (drain sv (S fuel) w) = Ok true.
Proof.
  intros H. unfold drain, bind. cbn. unfold bind, sqs_receive_message.
  rewrite H. cbn. auto.
Qed.

Lemma empty_drain_changes_nothing_witness :
  receive_message Demo.healthy
    (queue (Demo.online Demo.healthy Demo.empty)) 10
  = (NoMessages, Demo.empty) /\
  trace (drain Demo.healthy 1 (Demo.online Demo.healthy Demo.empty))
  = [Receive 10 NoMessages] /\
  conn (final (drain Demo.healthy 1 (Demo.online Demo.healthy Demo.empty)))
  = conn (Demo.online Demo.healthy Demo.empty) /\
  queue (final (drain Demo.healthy 1 (Demo.online Demo.healthy Demo.empty)))
  = Demo.empty /\
  outcome (drain Demo.healthy 1 (Demo.online Demo.healthy Demo.empty))
  = Ok true.
Proof.
  assert (H : receive_message Demo.healthy
                (queue (Demo.online Demo.healthy Demo.empty)) 10
              = (NoMessages, Demo.empty)) by reflexivity.
  split; [exact H|].
  exact (empty_drain_changes_nothing Demo.healthy 0
           (Demo.online Demo.healthy Demo.empty) Demo.empty H).
Defined.

(* ================================================================== *)
(** ** What the insert is given *)

Lemma spec_masked_record_columns (d : pydict) (today : Z) (r : row) :
  spec_masked_record d today = Ok r ->
  column "app_version" r =
    Some (SqlParam (spec_copied (dict_lookup (py "app_version") d))) /\
  column "create_date" r = Some (SqlDate today).
Proof.
  unfold spec_masked_record.
  destruct (spec_masked (dict_lookup (py "device_id") d)); [|discriminate].
  destruct (spec_masked (dict_lookup (py "ip") d)); [|discriminate].
  cbn [rbind]. intros [= <-]. split; reflexivity.
Qed.

Lemma insert_row_of_create_date (v : pyval) (today : Z) (r : row) :
  insert_row_of v today = Ok r ->
  column "create_date" r = Some (SqlDate today).
Proof.
  unfold insert_row_of.
  destruct (mask_field (py "device_id") v) as [v1|]; [|discriminate].
  cbn [rbind].
  destruct (mask_field (py "ip") v1) as [v2|]; [|discriminate].
  cbn [rbind].
  destruct (py_get v2 (py "app_version")) as [av|] eqn:Hget; [|discriminate].
  destruct (py_get_dict _ _ _ Hget) as [d ->].
  cbn. intros [= <-]. reflexivity.
Qed.

(** C6. For a body that parses to a dict, every insert the loop body
    executes carries in its [app_version] column the value of the
    [app_version] key as parsed, of whatever type, and null when the key
    is absent; and when the connection is open and masking succeeds the
    insert is executed, with the record of the specification. *)
Theorem app_version_passed_as_received (sv : services) (i : nat)
    (m : message) (w : world sv) (d : pydict) :
  json_loads sv (Body m) = Some (PDict d) ->
  (forall r ok,
     In (Msg i (Execute r ok)) (trace (process_message sv i m w)) ->
     column "app_version" r =
     Some (SqlParam (spec_copied (dict_lookup (py "app_version") d)))) /\
  (forall s r,
     conn w = Some s ->
     spec_masked_record d (current_date sv s) = Ok r ->
     exists ok, In (Msg i (Execute r ok)) (trace (process_message sv i m w))).
Proof.
  intros Hloads. split.
  - intros r ok H.
    destruct (process_message_execute sv i m w r ok H)
      as (v & s & Hv & _ & Hrow & _).
    rewrite Hloads in Hv. injection Hv as <-.
    rewrite insert_row_matches_spec in Hrow.
    now apply spec_masked_record_columns in Hrow.
  - intros s r Hconn Hrow.
    rewrite <- insert_row_matches_spec in Hrow.
    eapply process_message_reaches_execute; eauto.
Qed.

Lemma app_version_passed_as_received_witness :
  json_loads Demo.healthy (Body Demo.m3) = Some (PDict Demo.no_pii) /\
  (forall r ok,
     In (Msg 2 (Execute r ok))
        (trace (process_message Demo.healthy 2 Demo.m3
                  (Demo.online Demo.healthy Demo.empty))) ->
     column "app_version" r = Some (SqlParam (PInt 7))).
Proof.
  assert (H : json_loads Demo.healthy (Body Demo.m3)
              = Some (PDict Demo.no_pii)) by reflexivity.
  split; [exact H|].
  exact (proj1 (app_version_passed_as_received Demo.healthy 2 Demo.m3
                  (Demo.online Demo.healthy Demo.empty) Demo.no_pii H)).
Defined.

(** C7. The [create_date] column of every row the loop body inserts is
    the store's [CURRENT_DATE] when the insert is executed; it is the
    same for any other message processed against the same store, so no
    field of the body reaches it. *)
Theorem create_date_is_current_date (sv : services) (i : nat) (m : message)
    (w : world sv) (r : row) (ok : bool) :
  In (Msg i (Execute r ok)) (trace (process_message sv i m w)) ->
  (exists s,
     conn w = Some s /\
     column "create_date" r = Some (SqlDate (current_date sv s))) /\
  (forall i' m' r' ok',
     In (Msg i' (Execute r' ok')) (trace (process_message sv i' m' w)) ->
     column "create_date" r' = column "create_date" r).
Proof.
  intros H.
  destruct (process_message_execute sv i m w r ok H)
    as (v & s & _ & Hconn & Hrow & _).
  apply insert_row_of_create_date in Hrow. split; [eauto|].
  intros i' m' r' ok' H'.
  destruct (process_message_execute sv i' m' w r' ok' H')
    as (v' & s' & _ & Hconn' & Hrow' & _).
  apply insert_row_of_create_date in Hrow'.
  rewrite Hconn in Hconn'. injection Hconn' as <-. congruence.
Qed.

Lemma create_date_is_current_date_witness :
  exists r,
    In (Msg 0 (Execute r true))
       (trace (process_message Demo.healthy 0 Demo.m1
                 (Demo.online Demo.healthy Demo.empty))) /\
    exists s,
      conn (Demo.online Demo.healthy Demo.empty) = Some s /\
      column "create_date" r = Some (SqlDate (current_date Demo.healthy s)).
Proof.
  assert (H : exists r,
             In (Msg 0 (Execute r true))
                (trace (process_message Demo.healthy 0 Demo.m1
                          (Demo.online Demo.healthy Demo.empty)))).
  { eexists. vm_compute. in_list. }
  destruct H as [r H]. exists r. split; [exact H|].
  exact (proj1 (create_date_is_current_date Demo.healthy 0 Demo.m1
                  (Demo.online Demo.healthy Demo.empty) r true H)).
Defined.

(* ================================================================== *)
(** ** What the script prints *)

Lemma stdout_app (t1 t2 : list event) :
  stdout (t1 ++ t2) = stdout t1 ++ stdout t2.
Proof.
  induction t1 as [|ev t1 IH]; simpl; [reflexivity|].
  destruct ev as [| | | | |i []]; simpl; now rewrite ?IH.
Qed.

Lemma lines_bind (sv : services) {A B} (P : line -> Prop)
    (m : M sv A) (k : A -> M sv B) (w : world sv) :
  Forall P (stdout (trace (m w))) ->
  (forall a w1, Forall P (stdout (trace (k a w1)))) ->
  Forall P (stdout (trace (bind sv m k w))).
Proof.
  intros Hm Hk. unfold bind.
  destruct (m w) as [[t1 w1] [a|e]]; cbn in Hm |- *; [|exact Hm].
  specialize (Hk a w1). destruct (k a w1) as [[t2 w2] r]. cbn in Hk |- *.
  rewrite stdout_app. apply Forall_app. auto.
Qed.

Lemma lines_try_except (sv : services) (P : line -> Prop)
    (m : M sv unit) (h : exn -> M sv unit) (w : world sv) :
  Forall P (stdout (trace (m w))) ->
  (forall e w1, Forall P (stdout (trace (h e w1)))) ->
  Forall P (stdout (trace (try_except sv m h w))).
Proof.
  intros Hm Hh. unfold try_except.
  destruct (m w) as [[t1 w1] [a|e]]; cbn in Hm |- *; [exact Hm|].
  specialize (Hh e w1). destruct (h e w1) as [[t2 w2] r]. cbn in Hh |- *.
  rewrite stdout_app. apply Forall_app. auto.
Qed.

Lemma notice_line (s : string) :
  In s notices -> script_line (Line s []).
Proof. intros H. left. simpl. auto. Qed.

Lemma notice_error_line (s : string) (e : exn) :
  In s notices -> script_line (Line s [PExn e]).
Proof. intros H. left. simpl. eauto. Qed.

Lemma message_trace_lines (sv : services) (i : nat) (m : message)
    (t : list event) (b : bool) :
  message_trace sv i m t b -> Forall script_line (stdout t).
Proof.
  destruct 1; simpl; repeat (constructor; [right; eauto|]); constructor.
Qed.

Lemma loop_trace_lines (sv : services) (i : nat) (msgs : list message)
    (t : list event) (b : bool) :
  loop_trace sv i msgs t b -> Forall script_line (stdout t).
Proof.
  induction 1 as [i | i m rest t Hm | i m rest t1 t2 b Hm _ IH].
  - constructor.
  - eapply message_trace_lines; eauto.
  - rewrite stdout_app. apply Forall_app. split; [|exact IH].
    eapply message_trace_lines; eauto.
Qed.

Lemma receives_print_nothing (t : list event) :
  Forall (fun ev => exists resp, ev = Receive 10 resp) t -> stdout t = [].
Proof. induction 1 as [|ev t [resp ->] _ IH]; simpl; auto. Qed.

Lemma drain_lines (sv : services) (fuel : nat) (w : world sv) :
  Forall script_line (stdout (trace (drain sv fuel w))).
Proof.
  destruct (drain_shape sv fuel w) as (recv & rest & -> & Hrecv & Hcase).
  rewrite stdout_app, (receives_print_nothing recv Hrecv). cbn [app].
  destruct Hcase as [(-> & _) | (t & w' & _ & _ & -> & _)].
  - constructor.
  - eapply loop_trace_lines, process_messages_trace.
Qed.

Lemma script_lines (sv : services) (fuel : nat) (w : world sv) :
  Forall script_line (stdout (trace (script sv fuel w))).
Proof.
  unfold script. apply lines_bind.
  { unfold connect_database. destruct (connect sv); cbn.
    - constructor; [apply notice_line; simpl; auto | constructor].
    - constructor; [apply notice_error_line; simpl; auto | constructor]. }
  intros _ w1. apply lines_bind.
  { unfold alter_app_version. apply lines_try_except.
    - apply lines_bind.
      { unfold cursor_execute_alter. destruct (conn w1); cbn; [|constructor].
        destruct (alter_column sv s) as [ok s']. cbn. constructor. }
      intros _ w2. apply lines_bind.
      { unfold connection_commit_alter. destruct (conn w2); cbn; [|constructor].
        destruct (commit sv s) as [ok s']. cbn. constructor. }
      intros _ w3. cbn.
      constructor; [apply notice_line; simpl; auto | constructor].
    - intros e w2. cbn.
      constructor; [apply notice_error_line; simpl; auto 6 | constructor]. }
  intros _ w2. apply lines_bind; [apply drain_lines|].
  intros [|] w3.
  - apply lines_bind.
    + unfold close_connection. destruct (conn w3); cbn; [|constructor].
      constructor; [apply notice_line; simpl; auto 6 | constructor].
    + intros _ w4. constructor.
  - constructor.
Qed.

Lemma script_line_no_report (l : line) (c : counts) :
  script_line l -> ~ reports c l.
Proof.
  unfold reports. intros [[_ [-> | [e ->]]] | [d ->]]; discriminate.
Qed.

(** C8 as stated fails. On the batch of section 8 of the specification
    (three messages, the second undecodable, every service working) the
    script writes three lines and none of them carries counts; the
    counts read off the run are processed 1 and skipped-malformed 1, not
    the 2 and 1 of the specification, and they leave the third message
    unaccounted for. *)
Lemma no_report_for_the_batch_of_three :
  let tr := trace (script Demo.healthy 5 (Demo.start Demo.healthy Demo.three)) in
  ~ reports_cycle_counts tr /\
  List.map text (stdout tr) =
    ["Connected to PostgreSQL database";
     "Column 'app_version' type altered to VARCHAR";
     "Masked message:"]%string /\
  cycle_counts tr = Counts 1 1 0 0 /\
  List.length (received_messages tr) = 3%nat.
Proof.
  split; [|vm_compute; auto].
  intros (l & Hl & Hr).
  pose proof (script_lines Demo.healthy 5 (Demo.start Demo.healthy Demo.three))
    as Hall.
  rewrite Forall_forall in Hall.
  exact (script_line_no_report _ _ (Hall l Hl) Hr).
Qed.

(* ================================================================== *)
(** ** Further properties of masking and of the row *)

Lemma mask_pii_ok (raw h : pyval) :
  mask_pii raw = Ok h ->
  exists s bytes,
    raw = PStr s /\ str_encode s = Some bytes /\
    h = PStr (Sha256.hexdigest bytes).
Proof.
  destruct raw; simpl; try discriminate.
  destruct (str_encode s) as [bytes|] eqn:E; [|discriminate].
  intros [= <-]. exists s, bytes. auto.
Qed.

Lemma mask_pii_digest (raw h : pyval) : mask_pii raw = Ok h -> is_digest h.
Proof.
  intros H. destruct (mask_pii_ok raw h H) as (s & bytes & _ & _ & ->).
  exists (Sha256.hexdigest bytes).
  split; [reflexivity|]. split; [apply hexdigest_length | apply hex_bytes_lower].
Qed.

(** Masking keeps a dict a dict and leaves every other object alone. *)
Lemma mask_field_kind (k : pystr) (v v' : pyval) :
  mask_field k v = Ok v' ->
  (exists d d', v = PDict d /\ v' = PDict d') \/
  (v' = v /\ forall d, v <> PDict d).
Proof.
  destruct v; unfold mask_field; simpl; try discriminate.
  - destruct (str_contains k s); simpl; [discriminate|].
    intros [= <-]. right. split; [reflexivity | discriminate].
  - destruct (existsb (is_the_str k) l); simpl; [discriminate|].
    intros [= <-]. right. split; [reflexivity | discriminate].
  - destruct (dict_lookup k d) as [raw|]; simpl.
    + destruct (mask_pii raw); simpl; [|discriminate].
      intros [= <-]. left. eauto.
    + intros [= <-]. left. eauto.
Qed.

Lemma insert_row_of_is_dict (v : pyval) (today : Z) (r : row) :
  insert_row_of v today = Ok r -> exists d, v = PDict d.
Proof.
  unfold insert_row_of.
  destruct (mask_field (py "device_id") v) as [v1|] eqn:H1; [|discriminate].
  cbn [rbind].
  destruct (mask_field (py "ip") v1) as [v2|] eqn:H2; [|discriminate].
  cbn [rbind].
  destruct (py_get v2 (py "app_version")) as [av|] eqn:H3; [|discriminate].
  intros _. destruct (py_get_dict _ _ _ H3) as [d2 ->].
  destruct (mask_field_kind _ _ _ H2) as [(d1 & d2' & -> & _) | [<- Hno]].
  - destruct (mask_field_kind _ _ _ H1) as [(d & d1' & -> & _) | [<- Hno]];
      [eauto | now contradiction (Hno d1)].
  - now contradiction (Hno d2).
Qed.

Lemma dict_assign_keys (k : pystr) (v raw : pyval) (d : pydict) :
  dict_lookup k d = Some raw ->
  map fst (dict_assign k v d) = map fst d.
Proof.
  induction d as [|[k' v'] d IH]; simpl; [discriminate|].
  destruct (str_eqb k' k); simpl; [reflexivity|].
  intros H. now rewrite IH.
Qed.

(** X2. A row the loop body builds has exactly the seven columns of the
    INSERT statement, in the statement's order, and its [user_id],
    [device_type] and [locale] columns hold the parsed values of those
    keys, of whatever type, or null when the key is absent. *)
Theorem row_columns_and_plain_fields (d : pydict) (today : Z) (r : row) :
  insert_row_of (PDict d) today = Ok r ->
  map fst r = st_columns insert_query /\
  column "user_id" r =
    Some (SqlParam (spec_copied (dict_lookup (py "user_id") d))) /\
  column "device_type" r =
    Some (SqlParam (spec_copied (dict_lookup (py "device_type") d))) /\
  column "locale" r =
    Some (SqlParam (spec_copied (dict_lookup (py "locale") d))).
Proof.
  rewrite insert_row_matches_spec. unfold spec_masked_record.
  destruct (spec_masked (dict_lookup (py "device_id") d)); [|discriminate].
  destruct (spec_masked (dict_lookup (py "ip") d)); [|discriminate].
  cbn [rbind]. intros [= <-]. repeat split.
Qed.

Lemma row_columns_and_plain_fields_witness :
  insert_row_of (PDict Demo.no_pii) 19999 = Ok Cases.no_pii_row /\
  map fst Cases.no_pii_row = st_columns insert_query /\
  column "user_id" Cases.no_pii_row = Some (SqlParam (PStr (py "u2"))) /\
  column "device_type" Cases.no_pii_row = Some (SqlParam PNone) /\
  column "locale" Cases.no_pii_row = Some (SqlParam PNone).
Proof.
  assert (H : insert_row_of (PDict Demo.no_pii) 19999 = Ok Cases.no_pii_row)
    by (vm_compute; reflexivity).
  split; [exact H|].
  exact (row_columns_and_plain_fields Demo.no_pii 19999 Cases.no_pii_row H).
Defined.

(** X3. Masking a key of a dict rewrites that key in place: the keys and
    their order stay as they were, every other key keeps its value, the
    masked key holds a digest, and a dict without the key is returned
    unchanged. *)
Theorem masking_rewrites_one_key (k : pystr) (d : pydict) (v' : pyval) :
  mask_field k (PDict d) = Ok v' ->
  exists d',
    v' = PDict d' /\
    map fst d' = map fst d /\
    (forall k2, str_eqb k k2 = false -> dict_lookup k2 d' = dict_lookup k2 d) /\
    (dict_lookup k d = None -> d' = d) /\
    (forall raw, dict_lookup k d = Some raw ->
       exists h, mask_pii raw = Ok h /\ dict_lookup k d' = Some h).
Proof.
  rewrite mask_field_dict.
  destruct (dict_lookup k d) as [raw|] eqn:Hk.
  - destruct (mask_pii raw) as [h|e] eqn:Hm; cbn [rbind]; [|discriminate].
    intros [= <-]. exists (dict_assign k h d). repeat split.
    + eapply dict_assign_keys; eauto.
    + intros k2 Hk2. now apply dict_lookup_assign_other.
    + discriminate.
    + intros raw' [= <-]. exists h. split; [exact Hm|].
      apply dict_lookup_assign_same.
  - intros [= <-]. exists d. repeat split; auto. discriminate.
Qed.

Lemma masking_rewrites_one_key_witness :
  mask_field (py "ip") (PDict Demo.no_pii) = Ok (PDict Demo.no_pii) /\
  exists d',
    PDict Demo.no_pii = PDict d' /\
    map fst d' = map fst Demo.no_pii /\
    (forall k2, str_eqb (py "ip") k2 = false ->
                dict_lookup k2 d' = dict_lookup k2 Demo.no_pii) /\
    (dict_lookup (py "ip") Demo.no_pii = None -> d' = Demo.no_pii) /\
    (forall raw, dict_lookup (py "ip") Demo.no_pii = Some raw ->
       exists h, mask_pii raw = Ok h /\ dict_lookup (py "ip") d' = Some h).
Proof.
  assert (H : mask_field (py "ip") (PDict Demo.no_pii) = Ok (PDict Demo.no_pii))
    by reflexivity.
  split; [exact H|].
  exact (masking_rewrites_one_key (py "ip") Demo.no_pii (PDict Demo.no_pii) H).
Defined.

Lemma str_encode_ascii (s : pystr) :
  Forall (fun c => 0 <= c < 128) s -> str_encode s = Some s.
Proof.
  induction 1 as [|c s Hc _ IH]; simpl; [reflexivity|].
  rewrite IH. unfold utf8_char, is_scalar, is_surrogate.
  replace (0 <=? c) with true by (symmetry; apply Z.leb_le; lia).
  replace (c <=? 0x10FFFF) with true by (symmetry; apply Z.leb_le; lia).
  replace (0xD800 <=? c) with false by (symmetry; apply Z.leb_gt; lia).
  replace (c <? 0x80) with true by (symmetry; apply Z.ltb_lt; lia).
  reflexivity.
Qed.

(** X4. On a string of ASCII characters, which is what device
    identifiers and dotted addresses are, [mask_pii] returns the
    hexadecimal SHA-256 digest of the characters themselves taken as
    bytes. *)
Theorem mask_pii_of_ascii (s : pystr) :
  Forall (fun c => 0 <= c < 128) s ->
  mask_pii (PStr s) = Ok (PStr (Sha256.hexdigest s)).
Proof.
  intros H. unfold mask_pii. now rewrite (str_encode_ascii s H).
Qed.

Lemma mask_pii_of_ascii_witness :
  Forall (fun c => 0 <= c < 128) (py "d1") /\
  mask_pii (PStr (py "d1")) = Ok (PStr (Sha256.hexdigest (py "d1"))).
Proof.
  assert (H : Forall (fun c => 0 <= c < 128) (py "d1"))
    by (repeat constructor; vm_compute; discriminate).
  split; [exact H | exact (mask_pii_of_ascii (py "d1") H)].
Defined.

(* ================================================================== *)
(** ** Further properties of the loop body *)

Lemma mask_field_non_dict (k : pystr) (v : pyval) :
  (forall d, v <> PDict d) ->
  mask_field k v = Ok v \/ mask_field k v = Raise TypeError.
Proof.
  intros Hno. destruct v; unfold mask_field; simpl; auto.
  - destruct (str_contains k s); simpl; auto.
  - destruct (existsb (is_the_str k) l); simpl; auto.
  - now contradiction (Hno d).
Qed.

Lemma py_get_non_dict (v : pyval) (k : pystr) :
  (forall d, v <> PDict d) -> py_get v k = Raise AttributeError.
Proof.
  intros Hno. destruct v; simpl; auto. now contradiction (Hno d).
Qed.

Lemma mask_pii_raises (raw : pyval) (e : exn) :
  mask_pii raw = Raise e -> e = AttributeError \/ e = UnicodeEncodeError.
Proof.
  destruct raw; simpl; try (intros [= <-]; auto).
  destruct (str_encode s); [discriminate|]. intros [= <-]. auto.
Qed.

Lemma mask_field_dict_raises (k : pystr) (d : pydict) (e : exn) :
  mask_field k (PDict d) = Raise e ->
  e = AttributeError \/ e = UnicodeEncodeError.
Proof.
  rewrite mask_field_dict. destruct (dict_lookup k d) as [raw|]; [|discriminate].
  destruct (mask_pii raw) eqn:H; cbn [rbind]; [discriminate|].
  intros [= <-]. eapply mask_pii_raises; eauto.
Qed.

(** A dict that went through [mask_field] holds null or a digest under
    the masked key and what it held before under the others. *)
Lemma mask_field_masked (k : pystr) (v : pyval) (d' : pydict) :
  mask_field k v = Ok (PDict d') ->
  (dict_lookup k d' = None \/
   exists x, dict_lookup k d' = Some x /\ is_digest x) /\
  exists d, v = PDict d /\
    forall k2, str_eqb k k2 = false -> dict_lookup k2 d' = dict_lookup k2 d.
Proof.
  intros H.
  destruct (mask_field_kind _ _ _ H) as [(d & d2 & -> & _) | [Hv Hno]];
    [|now contradiction (Hno d')].
  rewrite mask_field_dict in H.
  destruct (dict_lookup k d) as [raw|] eqn:Hk.
  - destruct (mask_pii raw) as [h|e] eqn:Hm; cbn [rbind] in H; [|discriminate].
    injection H as <-. split.
    + right. exists h. split; [apply dict_lookup_assign_same|].
      eapply mask_pii_digest; eauto.
    + exists d. split; [reflexivity|].
      intros k2 Hk2. now apply dict_lookup_assign_other.
  - injection H as <-. split; [now left|]. exists d. auto.
Qed.

(** The line printed for a message carries the body after both masking
    steps. *)
Lemma process_message_print (sv : services) (i : nat) (m : message)
    (w : world sv) (l : line) :
  In (Msg i (Print l)) (trace (process_message sv i m w)) ->
  exists v v1 d,
    json_loads sv (Body m) = Some v /\
    mask_field (py "device_id") v = Ok v1 /\
    mask_field (py "ip") v1 = Ok (PDict d) /\
    l = masked_line d.
Proof.
  unfold process_message, bind, lift, emit, loads_body, cursor_execute,
    connection_commit, sqs_delete_message, trace, outcome.
  run_step; cbn; [|intros H; in_trace H].
  run_step; cbn; [|intros H; in_trace H].
  run_step; cbn; [|intros H; in_trace H].
  run_step; cbn; [|intros H; in_trace H].
  destruct (py_get_dict _ _ _ Hget) as [d ->]. cbn.
  assert (Hl : forall l', Msg i (Print (masked_line d)) = Msg i (Print l') ->
               exists v v1 d0,
                 Some p = Some v /\
                 mask_field (py "device_id") v = Ok v1 /\
                 mask_field (py "ip") v1 = Ok (PDict d0) /\
                 l' = masked_line d0).
  { intros l' [= <-]. exists p. eexists. exists d. eauto. }
  run_step; cbn; [|intros H; in_trace H; now apply Hl].
  run_step; cbn; [|intros H; in_trace H; now apply Hl].
  run_step; cbn; [|intros H; in_trace H; now apply Hl].
  run_step; cbn; intros H; in_trace H; now apply Hl.
Qed.

(** X5. A body that decodes to something other than an object (a list,
    a string, a number, a boolean, null) makes the loop body raise
    [TypeError] or [AttributeError] right after the parse: nothing is
    printed, inserted or deleted, and the queue and the store are as
    they were. *)
Theorem non_object_body_is_rejected (sv : services) (i : nat) (m : message)
    (w : world sv) (v : pyval) :
  json_loads sv (Body m) = Some v ->
  (forall d, v <> PDict d) ->
  exists e,
    (e = TypeError \/ e = AttributeError) /\
    process_message sv i m w = ([Msg i (Loads true)], w, Raise e).
Proof.
  intros Hloads Hno.
  unfold process_message, bind, lift, loads_body. rewrite Hloads.
  destruct (mask_field_non_dict (py "device_id") v Hno) as [E1|E1];
    rewrite E1; [|exists TypeError; auto].
  destruct (mask_field_non_dict (py "ip") v Hno) as [E2|E2];
    rewrite E2; [|exists TypeError; auto].
  rewrite (py_get_non_dict v (py "app_version") Hno).
  exists AttributeError. auto.
Qed.

Lemma non_object_body_is_rejected_witness :
  json_loads Cases.decoding (Body Cases.m_list) = Some (PList [PInt 1]) /\
  (forall d, PList [PInt 1] <> PDict d) /\
  exists e,
    (e = TypeError \/ e = AttributeError) /\
    process_message Cases.decoding 0 Cases.m_list
      (Demo.online Cases.decoding Demo.empty)
    = ([Msg 0 (Loads true)], Demo.online Cases.decoding Demo.empty, Raise e).
Proof.
  assert (H1 : json_loads Cases.decoding (Body Cases.m_list)
               = Some (PList [PInt 1])) by reflexivity.
  assert (H2 : forall d, PList [PInt 1] <> PDict d) by discriminate.
  split; [exact H1|]. split; [exact H2|].
  exact (non_object_body_is_rejected Cases.decoding 0 Cases.m_list
           (Demo.online Cases.decoding Demo.empty) (PList [PInt 1]) H1 H2).
Defined.

(** X6. When the body is an object whose [device_id] or [ip] is present
    but cannot be masked (it is not a string, or it holds a lone
    surrogate), the loop body raises [AttributeError] or
    [UnicodeEncodeError] right after the parse: nothing is printed,
    inserted or deleted, and the queue and the store are as they were. *)
Theorem unmaskable_field_stops_the_message (sv : services) (i : nat)
    (m : message) (w : world sv) (d : pydict) (today : Z) (e : exn) :
  json_loads sv (Body m) = Some (PDict d) ->
  insert_row_of (PDict d) today = Raise e ->
  (e = AttributeError \/ e = UnicodeEncodeError) /\
  process_message sv i m w = ([Msg i (Loads true)], w, Raise e).
Proof.
  intros Hloads Hrow.
  unfold process_message, bind, lift, loads_body. rewrite Hloads.
  unfold insert_row_of in Hrow.
  destruct (mask_field (py "device_id") (PDict d)) as [v1|e1] eqn:H1;
    cbn [rbind] in Hrow.
  - destruct (mask_field_kind _ _ _ H1) as [(d0 & d1 & _ & ->) | [_ Hno]];
      [|now contradiction (Hno d)].
    destruct (mask_field (py "ip") (PDict d1)) as [v2|e2] eqn:H2;
      cbn [rbind] in Hrow.
    + destruct (mask_field_kind _ _ _ H2) as [(d1' & d2 & _ & ->) | [_ Hno]];
        [|now contradiction (Hno d1)].
      discriminate Hrow.
    + injection Hrow as ->. split; [|reflexivity].
      eapply mask_field_dict_raises; eauto.
  - injection Hrow as ->. split; [|reflexivity].
    eapply mask_field_dict_raises; eauto.
Qed.

Lemma unmaskable_field_stops_the_message_witness :
  json_loads Demo.healthy (Body Cases.m_numeric_ip)
  = Some (PDict [(py "ip", PInt 5)]) /\
  insert_row_of (PDict [(py "ip", PInt 5)]) 19999 = Raise AttributeError /\
  (AttributeError = AttributeError \/ AttributeError = UnicodeEncodeError) /\
  process_message Demo.healthy 0 Cases.m_numeric_ip
    (Demo.online Demo.healthy Demo.empty)
  = ([Msg 0 (Loads true)], Demo.online Demo.healthy Demo.empty,
     Raise AttributeError).
Proof.
  assert (H1 : json_loads Demo.healthy (Body Cases.m_numeric_ip)
               = Some (PDict [(py "ip", PInt 5)])) by reflexivity.
  assert (H2 : insert_row_of (PDict [(py "ip", PInt 5)]) 19999
               = Raise AttributeError) by reflexivity.
  split; [exact H1|]. split; [exact H2|].
  exact (unmaskable_field_stops_the_message Demo.healthy 0 Cases.m_numeric_ip
           (Demo.online Demo.healthy Demo.empty) _ 19999 AttributeError H1 H2).
Defined.

(** X7. The line printed for a message is the ["Masked message:"] line
    and the body it carries holds, under [ip] and under [device_id],
    nothing or a 64-character hexadecimal digest: the raw values of the
    two fields are never printed under their keys. *)
Theorem printed_body_is_masked (sv : services) (i : nat) (m : message)
    (w : world sv) (l : line) :
  In (Msg i (Print l)) (trace (process_message sv i m w)) ->
  exists d,
    l = masked_line d /\
    (dict_lookup (py "ip") d = None \/
     exists x, dict_lookup (py "ip") d = Some x /\ is_digest x) /\
    (dict_lookup (py "device_id") d = None \/
     exists x, dict_lookup (py "device_id") d = Some x /\ is_digest x).
Proof.
  intros H.
  destruct (process_message_print sv i m w l H)
    as (v & v1 & d & _ & H1 & H2 & ->).
  exists d. split; [reflexivity|].
  destruct (mask_field_masked _ _ _ H2) as [Hip (d1 & -> & Hsame)].
  split; [exact Hip|].
  destruct (mask_field_masked _ _ _ H1) as [Hdev _].
  now rewrite (Hsame (py "device_id")) by reflexivity.
Qed.

Lemma printed_body_is_masked_witness :
  In (Msg 0 (Print (masked_line Demo.no_pii)))
     (trace (process_message Demo.healthy 0 Demo.m3
               (Demo.online Demo.healthy Demo.empty))) /\
  exists d,
    masked_line Demo.no_pii = masked_line d /\
    (dict_lookup (py "ip") d = None \/
     exists x, dict_lookup (py "ip") d = Some x /\ is_digest x) /\
    (dict_lookup (py "device_id") d = None \/
     exists x, dict_lookup (py "device_id") d = Some x /\ is_digest x).
Proof.
  assert (H : In (Msg 0 (Print (masked_line Demo.no_pii)))
                (trace (process_message Demo.healthy 0 Demo.m3
                          (Demo.online Demo.healthy Demo.empty))))
    by (vm_compute; in_list).
  split; [exact H|].
  exact (printed_body_is_masked Demo.healthy 0 Demo.m3
           (Demo.online Demo.healthy Demo.empty) _ H).
Defined.

(** X8. A pass through the loop body that executes no insert leaves the
    queue and the store exactly as they were, and a pass that calls no
    delete leaves the queue as it was. *)
Theorem message_without_insert_changes_nothing (sv : services) (i : nat)
    (m : message) (w : world sv) :
  ((forall r ok, ~ In (Msg i (Execute r ok)) (trace (process_message sv i m w))) ->
   final (process_message sv i m w) = w) /\
  ((forall h ok, ~ In (Msg i (Delete h ok)) (trace (process_message sv i m w))) ->
   queue (final (process_message sv i m w)) = queue w).
Proof.
  unfold process_message, bind, lift, emit, loads_body, cursor_execute,
    connection_commit, sqs_delete_message, trace, final.
  run_step; cbn; [|now split].
  run_step; cbn; [|now split].
  run_step; cbn; [|now split].
  run_step; cbn; [|now split].
  destruct (py_get_dict _ _ _ Hget) as [d ->]. cbn.
  run_step; cbn; [|now split].
  run_step; cbn.
  - run_step; cbn; [run_step; cbn|]; split; intros H;
      try reflexivity; exfalso; eapply H; in_list.
  - split; intros H; [exfalso; eapply H; in_list | reflexivity].
Qed.

Lemma message_without_insert_changes_nothing_witness :
  (forall r ok,
     ~ In (Msg 1 (Execute r ok))
         (trace (process_message Demo.healthy 1 Demo.m2
                   (Demo.online Demo.healthy Demo.empty)))) /\
  final (process_message Demo.healthy 1 Demo.m2
           (Demo.online Demo.healthy Demo.empty))
  = Demo.online Demo.healthy Demo.empty.
Proof.
  assert (H : forall r ok,
             ~ In (Msg 1 (Execute r ok))
                 (trace (process_message Demo.healthy 1 Demo.m2
                           (Demo.online Demo.healthy Demo.empty)))).
  { intros r ok H. vm_compute in H. in_trace H. }
  split; [exact H|].
  exact (proj1 (message_without_insert_changes_nothing Demo.healthy 1 Demo.m2
                  (Demo.online Demo.healthy Demo.empty)) H).
Defined.

(* ================================================================== *)
(** ** Further properties of the drain cycle *)

Lemma message_trace_completed (sv : services) (i : nat) (m : message)
    (t : list event) :
  message_trace sv i m t true ->
  json_loads sv (Body m) <> None /\
  (exists r, In (Msg i (Execute r true)) t) /\
  In (Msg i (Commit true)) t /\
  In (Msg i (Delete (ReceiptHandle m) true)) t.
Proof.
  intros H. inversion H; subst. repeat split.
  - congruence.
  - exists r. in_list.
  - in_list.
  - in_list.
Qed.

Lemma loop_trace_complete (sv : services) (i : nat) (msgs : list message)
    (t : list event) (b : bool) :
  loop_trace sv i msgs t b ->
  b = true ->
  forall k m,
    nth_error msgs k = Some m ->
    json_loads sv (Body m) <> None /\
    (exists r, In (Msg (i + k) (Execute r true)) t) /\
    In (Msg (i + k) (Commit true)) t /\
    In (Msg (i + k) (Delete (ReceiptHandle m) true)) t.
Proof.
  induction 1 as [i | i m0 rest t Hm | i m0 rest t1 t2 b Hm _ IH];
    intros Hb k m Hnth.
  - destruct k; discriminate.
  - discriminate.
  - destruct k as [|k]; simpl in Hnth.
    + injection Hnth as ->. rewrite Nat.add_0_r.
      destruct (message_trace_completed _ _ _ _ Hm) as (H1 & [r H2] & H3 & H4).
      repeat split; auto; [exists r|..]; apply in_or_app; auto.
    + rewrite Nat.add_succ_r.
      destruct (IH Hb k m Hnth) as (H1 & [r H2] & H3 & H4).
      repeat split; auto; [exists r|..]; apply in_or_app; auto.
Qed.

(** The loop over the received messages inside a drain trace. *)
Lemma drain_loop (sv : services) (fuel : nat) (w : world sv) :
  (forall j a, ~ In (Msg j a) (trace (drain sv fuel w))) \/
  exists recv rest b,
    trace (drain sv fuel w) = recv ++ rest /\
    (forall j a, ~ In (Msg j a) recv) /\
    received_messages (trace (drain sv fuel w)) = received_messages recv /\
    loop_trace sv 0 (received_messages recv) rest b /\
    (outcome (drain sv fuel w) = Ok true -> b = true).
Proof.
  destruct (drain_shape sv fuel w) as (recv & rest & Htr & Hrecv & Hcase).
  assert (Hno : forall j a, ~ In (Msg j a) recv).
  { intros j a H. rewrite Forall_forall in Hrecv.
    destruct (Hrecv _ H) as [resp Hev]. discriminate. }
  destruct Hcase as [(-> & _) | (t & w' & _ & _ & Hrest & Hout)].
  - left. rewrite Htr, app_nil_r. exact Hno.
  - right.
    pose proof (process_messages_trace sv (received_messages recv) 0 w')
      as Hloop.
    rewrite <- Hrest in Hloop.
    exists recv, rest,
      (returned (outcome (process_messages sv 0 (received_messages recv) w'))).
    split; [exact Htr|]. split; [exact Hno|].
    split; [|split; [exact Hloop|]].
    + rewrite Htr, received_messages_app,
        (received_messages_none rest (loop_trace_no_receive _ _ _ _ _ Hloop)).
      apply app_nil_r.
    + rewrite Hout.
      destruct (outcome (process_messages sv 0 (received_messages recv) w'));
        [reflexivity | discriminate].
Qed.

(** X9. When a drain cycle completes, every message the receive calls
    returned was decoded, inserted, committed and deleted, each delete
    succeeding. *)
Theorem completed_cycle_handles_every_message (sv : services) (fuel : nat)
    (w : world sv) (j : nat) (m : message) :
  outcome (drain sv fuel w) = Ok true ->
  nth_error (received_messages (trace (drain sv fuel w))) j = Some m ->
  json_loads sv (Body m) <> None /\
  (exists r, In (Msg j (Execute r true)) (trace (drain sv fuel w))) /\
  In (Msg j (Commit true)) (trace (drain sv fuel w)) /\
  In (Msg j (Delete (ReceiptHandle m) true)) (trace (drain sv fuel w)).
Proof.
  intros Hout Hnth.
  destruct (drain_shape sv fuel w) as (recv & rest & Htr & Hrecv & Hcase).
  destruct Hcase as [(_ & _ & Hne) | (t & w' & _ & _ & Hrest & Hout')];
    [contradiction|].
  pose proof (process_messages_trace sv (received_messages recv) 0 w') as Hloop.
  rewrite <- Hrest in Hloop.
  rewrite Htr in Hnth |- *.
  rewrite received_messages_app,
    (received_messages_none rest (loop_trace_no_receive _ _ _ _ _ Hloop)),
    app_nil_r in Hnth.
  assert (Hb : returned
                 (outcome (process_messages sv 0 (received_messages recv) w'))
               = true).
  { rewrite Hout in Hout'.
    destruct (outcome (process_messages sv 0 (received_messages recv) w'));
      [reflexivity | discriminate]. }
  destruct (loop_trace_complete _ _ _ _ _ Hloop Hb j m Hnth)
    as (H1 & [r H2] & H3 & H4).
  cbn [Nat.add] in H2, H3, H4.
  repeat split; auto; [exists r|..]; apply in_or_app; auto.
Qed.

Lemma completed_cycle_handles_every_message_witness :
  outcome (drain Demo.healthy 5 (Demo.online Demo.healthy Cases.two)) = Ok true /\
  nth_error (received_messages
               (trace (drain Demo.healthy 5
                         (Demo.online Demo.healthy Cases.two)))) 1
  = Some Demo.m3 /\
  In (Msg 1 (Delete (ReceiptHandle Demo.m3) true))
     (trace (drain Demo.healthy 5 (Demo.online Demo.healthy Cases.two))).
Proof.
  assert (H1 : outcome (drain Demo.healthy 5
                          (Demo.online Demo.healthy Cases.two)) = Ok true)
    by (vm_compute; reflexivity).
  assert (H2 : nth_error (received_messages
                 (trace (drain Demo.healthy 5
                           (Demo.online Demo.healthy Cases.two)))) 1
               = Some Demo.m3) by (vm_compute; reflexivity).
  split; [exact H1|]. split; [exact H2|].
  exact (proj2 (proj2 (proj2
           (completed_cycle_handles_every_message Demo.healthy 5
              (Demo.online Demo.healthy Cases.two) 1 Demo.m3 H1 H2)))).
Defined.

Lemma receive_all_error (sv : services) (fuel : nat) :
  forall (acc : list message) (w : world sv),
    In (Receive 10 ReceiveError) (trace (receive_all sv fuel acc w)) ->
    outcome (receive_all sv fuel acc w) = Raise ClientError.
Proof.
  induction fuel as [|fuel IH]; intros acc w; cbn.
  - intros [].
  - unfold bind, sqs_receive_message.
    destruct (receive_message sv (queue w) 10) as [[| batch |] q']; cbn.
    + intros [H|[]]. discriminate.
    + specialize (IH (acc ++ batch) (World q' (conn w))).
      destruct (receive_all sv fuel (acc ++ batch) (World q' (conn w)))
        as [[t2 w2] r2]; cbn in IH |- *.
      intros [H|H]; [discriminate | auto].
    + reflexivity.
Qed.

(** X12. When a receive call raises, the cycle ends with that error and
    the messages the earlier calls had returned are dropped: none of them
    is parsed, inserted or deleted, and the store is untouched. *)
Theorem receive_error_drops_the_batches (sv : services) (fuel : nat)
    (w : world sv) :
  In (Receive 10 ReceiveError) (trace (drain sv fuel w)) ->
  outcome (drain sv fuel w) = Raise ClientError /\
  (forall j a, ~ In (Msg j a) (trace (drain sv fuel w))) /\
  conn (final (drain sv fuel w)) = conn w.
Proof.
  unfold drain, bind.
  pose proof (receive_all_error sv fuel [] w) as Herr.
  pose proof (receive_all_shape sv fuel [] w) as Hshape. cbn in Hshape.
  destruct (receive_all sv fuel [] w) as [[t1 w1] r1]; cbn in Herr, Hshape.
  destruct Hshape as (Hall & Hconn & _).
  assert (Hno : forall j a, ~ In (Msg j a) t1).
  { intros j a H. rewrite Forall_forall in Hall.
    destruct (Hall _ H) as [resp Hev]. discriminate. }
  destruct r1 as [[msgs|]|e].
  - pose proof (process_messages_trace sv msgs 0 w1) as Hloop.
    destruct (process_messages sv 0 msgs w1) as [[t2 w2] r2]; cbn in Hloop.
    assert (Hin : In (Receive 10 ReceiveError) (t1 ++ t2) -> False).
    { intros H. apply in_app_or in H as [H|H].
      - specialize (Herr H). discriminate.
      - apply loop_trace_no_receive in Hloop. rewrite Forall_forall in Hloop.
        specialize (Hloop _ H). discriminate. }
    destruct r2; cbn; rewrite ?app_nil_r; intros H; now contradiction Hin.
  - cbn. rewrite app_nil_r. intros H. specialize (Herr H). discriminate.
  - cbn. intros H. specialize (Herr H). injection Herr as ->. auto.
Qed.

Lemma receive_error_drops_the_batches_witness :
  In (Receive 10 ReceiveError)
     (trace (drain Cases.flaky 5 (Demo.online Cases.flaky Demo.three))) /\
  outcome (drain Cases.flaky 5 (Demo.online Cases.flaky Demo.three))
  = Raise ClientError /\
  (forall j a,
     ~ In (Msg j a)
         (trace (drain Cases.flaky 5 (Demo.online Cases.flaky Demo.three)))) /\
  conn (final (drain Cases.flaky 5 (Demo.online Cases.flaky Demo.three)))
  = conn (Demo.online Cases.flaky Demo.three).
Proof.
  assert (H : In (Receive 10 ReceiveError)
                (trace (drain Cases.flaky 5
                          (Demo.online Cases.flaky Demo.three))))
    by (vm_compute; in_list).
  split; [exact H|].
  exact (receive_error_drops_the_batches Cases.flaky 5
           (Demo.online Cases.flaky Demo.three) H).
Defined.

(* ================================================================== *)
(** ** Further properties of the whole script *)

(** Lines 45-54 case by case. *)
Lemma alter_cases (sv : services) (w : world sv) :
  alter_app_version sv w =
  match conn w with
  | None =>
      ([Stdout (Line "Error while altering column type:" [PExn NameError])],
       w, Ok tt)
  | Some s =>
      let '(ok, s1) := alter_column sv s in
      if ok then
        let '(ok2, s2) := commit sv s1 in
        if ok2 then
          ([Alter true; CommitAlter true;
            Stdout (Line "Column 'app_version' type altered to VARCHAR" [])],
           World (queue w) (Some s2), Ok tt)
        else
          ([Alter true; CommitAlter false;
            Stdout (Line "Error while altering column type:"
                      [PExn DatabaseError])],
           World (queue w) (Some s2), Ok tt)
      else
        ([Alter false;
          Stdout (Line "Error while altering column type:"
                    [PExn DatabaseError])],
         World (queue w) (Some s1), Ok tt)
  end.
Proof.
  unfold alter_app_version, try_except, bind, cursor_execute_alter,
    connection_commit_alter, emit.
  destruct (conn w) as [s|] eqn:Hc; [|reflexivity].
  destruct (alter_column sv s) as [[|] s1]; cbn; [|reflexivity].
  destruct (commit sv s1) as [[|] s2]; reflexivity.
Qed.

(** X13. The ALTER TABLE step never stops the script: whatever the
    database answers, and also when no connection was made, it returns
    normally, leaves the queue alone and prints exactly one line, which
    is the success notice exactly when both the statement and its commit
    succeeded; the commit is attempted only after the statement
    succeeded, and without a connection no database call is made. *)
Theorem alter_failure_is_swallowed (sv : services) (w : world sv) :
  outcome (alter_app_version sv w) = Ok tt /\
  queue (final (alter_app_version sv w)) = queue w /\
  (exists l,
     stdout (trace (alter_app_version sv w)) = [l] /\
     (In (CommitAlter true) (trace (alter_app_version sv w)) <->
      text l = "Column 'app_version' type altered to VARCHAR"%string)) /\
  (forall ok, In (CommitAlter ok) (trace (alter_app_version sv w)) ->
              In (Alter true) (trace (alter_app_version sv w))) /\
  (conn w = None ->
   alter_app_version sv w =
   ([Stdout (Line "Error while altering column type:" [PExn NameError])],
    w, Ok tt)).
Proof.
  rewrite alter_cases.
  destruct (conn w) as [s|].
  - destruct (alter_column sv s) as [[|] s1].
    + destruct (commit sv s1) as [[|] s2]; cbn; repeat split;
        try discriminate;
        try (eexists; split; [reflexivity|]; split; intros H;
             [try reflexivity; in_trace H | try discriminate H; in_list]);
        try (intros ok H; in_list).
    + cbn. repeat split; try discriminate.
      * eexists. split; [reflexivity|]. split; intros H;
          [in_trace H | discriminate H].
      * intros ok H. in_trace H.
  - cbn. repeat split.
    + eexists. split; [reflexivity|]. split; intros H;
        [in_trace H | discriminate H].
    + intros ok H. in_trace H.
Qed.

Lemma alter_failure_is_swallowed_witness :
  conn (Demo.start Cases.offline Demo.three) = None /\
  alter_app_version Cases.offline (Demo.start Cases.offline Demo.three) =
  ([Stdout (Line "Error while altering column type:" [PExn NameError])],
   Demo.start Cases.offline Demo.three, Ok tt).
Proof.
  assert (H : conn (Demo.start Cases.offline Demo.three) = None)
    by reflexivity.
  split; [exact H|].
  exact (proj2 (proj2 (proj2 (proj2
           (alter_failure_is_swallowed Cases.offline
              (Demo.start Cases.offline Demo.three))))) H).
Defined.

Lemma alter_shape (sv : services) (w : world sv) :
  exists ta wa,
    alter_app_version sv w = (ta, wa, Ok tt) /\
    Forall (fun ev => outside_the_cycle ev /\ ev <> Close) ta /\
    queue wa = queue w /\
    (conn w = None -> wa = w /\ forall ok, ~ In (Alter ok) ta).
Proof.
  rewrite alter_cases. destruct (conn w) as [s|].
  - destruct (alter_column sv s) as [[|] s1];
      [destruct (commit sv s1) as [[|] s2]|];
      eexists; eexists; (split; [reflexivity|]);
      (split; [|split; [reflexivity | discriminate]]);
      repeat constructor; discriminate.
  - eexists; eexists. split; [reflexivity|].
    split; [repeat constructor; discriminate|].
    split; [reflexivity|]. intros _. split; [reflexivity|].
    intros ok H. in_trace H.
Qed.

Lemma script_unfold (sv : services) (fuel : nat) (w wc wa : world sv)
    (tc ta : list event) :
  connect_database sv w = (tc, wc, Ok tt) ->
  alter_app_version sv wc = (ta, wa, Ok tt) ->
  script sv fuel w =
  (let '(t, w2, r) := drain sv fuel wa in
   match r with
   | Ok true =>
       match conn w2 with
       | Some _ => ((tc ++ ta) ++ t ++ closing, w2, Ok true)
       | None => ((tc ++ ta) ++ t, w2, Raise NameError)
       end
   | Ok false => ((tc ++ ta) ++ t, w2, Ok false)
   | Raise e => ((tc ++ ta) ++ t, w2, Raise e)
   end).
Proof.
  intros Hc Ha. unfold script. unfold bind at 1. rewrite Hc.
  unfold bind at 1. rewrite Ha.
  unfold bind, close_connection, ret, closing.
  destruct (drain sv fuel wa) as [[t w2] [[|]|e]]; cbn.
  - destruct (conn w2); cbn; now rewrite ?app_nil_r, ?app_assoc.
  - now rewrite ?app_nil_r, ?app_assoc.
  - now rewrite ?app_assoc.
Qed.

(** The script is some lines before the cycle, the cycle, and the
    closing lines when the cycle completed with a connection. *)
Lemma script_shape (sv : services) (fuel : nat) (w : world sv) :
  exists pre w1,
    Forall (fun ev => outside_the_cycle ev /\ ev <> Close) pre /\
    queue w1 = queue w /\
    (connect sv = None -> conn w = None ->
     w1 = w /\ forall ok, ~ In (Alter ok) pre) /\
    script sv fuel w =
    (let '(t, w2, r) := drain sv fuel w1 in
     match r with
     | Ok true =>
         match conn w2 with
         | Some _ => (pre ++ t ++ closing, w2, Ok true)
         | None => (pre ++ t, w2, Raise NameError)
         end
     | Ok false => (pre ++ t, w2, Ok false)
     | Raise e => (pre ++ t, w2, Raise e)
     end).
Proof.
  destruct (connect sv) as [s0|] eqn:Hconnect.
  - destruct (alter_shape sv (World (queue w) (Some s0)))
      as (ta & wa & Ha & Hta & Hq & _).
    exists ([Stdout (Line "Connected to PostgreSQL database" [])] ++ ta), wa.
    split; [|split; [exact Hq | split; [discriminate|]]].
    + constructor; [split; [exact I | discriminate] | exact Hta].
    + eapply script_unfold; [|exact Ha].
      unfold connect_database. now rewrite Hconnect.
  - destruct (alter_shape sv w) as (ta & wa & Ha & Hta & Hq & Hnone).
    exists ([Stdout (Line "Error while connecting to PostgreSQL:"
                       [PExn DatabaseError])] ++ ta), wa.
    split; [|split; [exact Hq | split]].
    + constructor; [split; [exact I | discriminate] | exact Hta].
    + intros _ Hc. destruct (Hnone Hc) as [-> Hno]. split; [reflexivity|].
      intros ok [H|H]; [discriminate | now apply (Hno ok)].
    + eapply script_unfold; [|exact Ha].
      unfold connect_database. now rewrite Hconnect.
Qed.

Lemma drain_events (sv : services) (fuel : nat) (w : world sv) (ev : event) :
  In ev (trace (drain sv fuel w)) ->
  (exists resp, ev = Receive 10 resp) \/ (exists j a, ev = Msg j a).
Proof.
  destruct (drain_shape sv fuel w) as (recv & rest & -> & Hrecv & Hcase).
  intros H. apply in_app_or in H as [H|H].
  - left. rewrite Forall_forall in Hrecv. auto.
  - right. destruct Hcase as [(-> & _) | (t & w' & _ & _ & Hrest & _)];
      [destruct H|].
    pose proof (process_messages_trace sv (received_messages recv) 0 w')
      as Hloop.
    rewrite <- Hrest in Hloop. apply loop_trace_index in Hloop.
    rewrite Forall_forall in Hloop.
    destruct (Hloop _ H) as (k & a & -> & _). eauto.
Qed.

(** X14. The connection is closed, and the closing notice printed, exactly
    when the script reaches its end: a run contains the close if and only
    if it returns normally with the cycle completed, and then the close
    and the notice are its last two events. An exception anywhere in the
    cycle leaves the connection unclosed. *)
Theorem connection_closed_iff_completed (sv : services) (fuel : nat)
    (w : world sv) :
  (In Close (trace (script sv fuel w)) <->
   outcome (script sv fuel w) = Ok true) /\
  (outcome (script sv fuel w) = Ok true ->
   exists t, trace (script sv fuel w) = t ++ closing).
Proof.
  destruct (script_shape sv fuel w) as (pre & w1 & Hpre & _ & _ & ->).
  pose proof (drain_events sv fuel w1) as Hd.
  destruct (drain sv fuel w1) as [[t w2] r]. cbn in Hd.
  assert (Hno : ~ In Close (pre ++ t)).
  { intros H. apply in_app_or in H as [H|H].
    - rewrite Forall_forall in Hpre. destruct (Hpre _ H) as [_ Hne].
      now apply Hne.
    - destruct (Hd _ H) as [[resp Hev] | (j & a & Hev)]; discriminate. }
  destruct r as [[|]|e]; [destruct (conn w2)|..]; cbn; split;
    try (split; [intros H; now contradiction Hno | discriminate]);
    try discriminate.
  - split; [reflexivity|]. intros _. rewrite app_assoc.
    apply in_or_app. right. now left.
  - intros _. exists (pre ++ t). now rewrite app_assoc.
Qed.

Lemma connection_closed_iff_completed_witness :
  outcome (script Demo.healthy 5 (Demo.start Demo.healthy Cases.two))
  = Ok true /\
  In Close (trace (script Demo.healthy 5 (Demo.start Demo.healthy Cases.two))).
Proof.
  assert (H : outcome (script Demo.healthy 5
                         (Demo.start Demo.healthy Cases.two)) = Ok true)
    by (vm_compute; reflexivity).
  split; [exact H|].
  exact (proj2 (proj1 (connection_closed_iff_completed Demo.healthy 5
                         (Demo.start Demo.healthy Cases.two))) H).
Defined.

Lemma process_message_offline (sv : services) (i : nat) (m : message)
    (w : world sv) :
  conn w = None ->
  (exists e, outcome (process_message sv i m w) = Raise e) /\
  final (process_message sv i m w) = w /\
  (forall j a, In (Msg j a) (trace (process_message sv i m w)) ->
               j = i /\ ((exists ok, a = Loads ok) \/ (exists l, a = Print l))).
Proof.
  intros Hc.
  assert (Hev : forall (t : list event),
            Forall (fun ev => exists a, ev = Msg i a /\
                      ((exists ok, a = Loads ok) \/ (exists l, a = Print l))) t ->
            forall j a, In (Msg j a) t ->
              j = i /\ ((exists ok, a = Loads ok) \/ (exists l, a = Print l))).
  { intros t Ht j a H. rewrite Forall_forall in Ht.
    destruct (Ht _ H) as (a' & Heq & Hk). injection Heq as -> ->. auto. }
  unfold process_message, bind, lift, emit, loads_body, cursor_execute,
    connection_commit, sqs_delete_message, trace, outcome, final.
  run_step; cbn -[In];
    [|split; [eauto | split; [reflexivity|]]; apply Hev;
      repeat constructor; eauto].
  run_step; cbn -[In];
    [|split; [eauto | split; [reflexivity|]]; apply Hev;
      repeat constructor; eauto].
  run_step; cbn -[In];
    [|split; [eauto | split; [reflexivity|]]; apply Hev;
      repeat constructor; eauto].
  run_step; cbn -[In];
    [|split; [eauto | split; [reflexivity|]]; apply Hev;
      repeat constructor; eauto].
  destruct (py_get_dict _ _ _ Hget) as [d ->]. cbn -[In].
  rewrite Hc. cbn -[In].
  split; [eauto | split; [reflexivity|]]; apply Hev; repeat constructor; eauto.
Qed.

Lemma process_messages_offline (sv : services) (msgs : list message)
    (w : world sv) :
  conn w = None ->
  final (process_messages sv 0 msgs w) = w /\
  (forall j a, In (Msg j a) (trace (process_messages sv 0 msgs w)) ->
               j = 0%nat /\
               ((exists ok, a = Loads ok) \/ (exists l, a = Print l))).
Proof.
  intros Hc. destruct msgs as [|m rest]; cbn.
  - split; [reflexivity | intros j a []].
  - unfold bind.
    destruct (process_message_offline sv 0 m w Hc) as ([e He] & Hf & Hev).
    destruct (process_message sv 0 m w) as [[t1 w1] r1].
    cbn in He, Hf, Hev. subst r1 w1. cbn. auto.
Qed.

Lemma drain_offline (sv : services) (fuel : nat) (w : world sv) :
  conn w = None ->
  conn (final (drain sv fuel w)) = None /\
  (forall j a, In (Msg j a) (trace (drain sv fuel w)) ->
               j = 0%nat /\
               ((exists ok, a = Loads ok) \/ (exists l, a = Print l))).
Proof.
  intros Hc. unfold drain, bind.
  pose proof (receive_all_shape sv fuel [] w) as Hshape. cbn in Hshape.
  destruct (receive_all sv fuel [] w) as [[t1 w1] r1]; cbn in Hshape.
  destruct Hshape as (Hall & Hconn & _).
  assert (Hno : forall j a, ~ In (Msg j a) t1).
  { intros j a H. rewrite Forall_forall in Hall.
    destruct (Hall _ H) as [resp Hev]. discriminate. }
  rewrite Hc in Hconn.
  destruct r1 as [[msgs|]|e]; cbn.
  - destruct (process_messages_offline sv msgs w1 Hconn) as [Hf Hev].
    destruct (process_messages sv 0 msgs w1) as [[t2 w2] r2].
    cbn in Hf, Hev. subst w2.
    destruct r2 as [[]|e2]; cbn; (split; [exact Hconn|]); rewrite ?app_nil_r;
      intros j a H; apply in_app_or in H as [H|H];
      try (now contradiction (Hno j a)); auto.
  - split; [exact Hconn|]. rewrite app_nil_r.
    intros j a H. now contradiction (Hno j a).
  - split; [exact Hconn|]. intros j a H. now contradiction (Hno j a).
Qed.

(** X15. When the connection to the database could not be made, the
    script persists nothing and deletes nothing: it executes no ALTER,
    no insert and no commit and calls no delete, the only events about
    messages are the parse and the printed line of the first one, the
    connection is never closed and the run never ends as completed. *)
Theorem without_connection_nothing_is_deleted (sv : services) (fuel : nat)
    (w : world sv) :
  connect sv = None ->
  conn w = None ->
  (forall j a, In (Msg j a) (trace (script sv fuel w)) ->
               j = 0%nat /\
               ((exists ok, a = Loads ok) \/ (exists l, a = Print l))) /\
  (forall ok, ~ In (Alter ok) (trace (script sv fuel w))) /\
  ~ In Close (trace (script sv fuel w)) /\
  outcome (script sv fuel w) <> Ok true.
Proof.
  intros Hconnect Hc.
  destruct (script_shape sv fuel w) as (pre & w1 & Hpre & _ & Hoff & Heq).
  destruct (Hoff Hconnect Hc) as [-> Hnoalter].
  rewrite Heq.
  destruct (drain_offline sv fuel w Hc) as [Hfinal Hev].
  pose proof (drain_events sv fuel w) as Hd.
  destruct (drain sv fuel w) as [[t w2] r]. cbn in Hfinal, Hev, Hd.
  assert (G1 : forall j a, In (Msg j a) (pre ++ t) ->
            j = 0%nat /\
            ((exists ok, a = Loads ok) \/ (exists l, a = Print l))).
  { intros j a H. apply in_app_or in H as [H|H]; [|now apply Hev].
    rewrite Forall_forall in Hpre. destruct (Hpre _ H) as [[] _]. }
  assert (G2 : forall ok, ~ In (Alter ok) (pre ++ t)).
  { intros ok H. apply in_app_or in H as [H|H]; [now apply (Hnoalter ok)|].
    destruct (Hd _ H) as [[resp Hx] | (j & a & Hx)]; discriminate. }
  assert (G3 : ~ In Close (pre ++ t)).
  { intros H. apply in_app_or in H as [H|H].
    - rewrite Forall_forall in Hpre. destruct (Hpre _ H) as [_ Hne].
      now apply Hne.
    - destruct (Hd _ H) as [[resp Hx] | (j & a & Hx)]; discriminate. }
  destruct r as [[|]|e]; [rewrite Hfinal|..]; cbn;
    (split; [exact G1|]); (split; [exact G2|]); (split; [exact G3|]);
    discriminate.
Qed.

Lemma without_connection_nothing_is_deleted_witness :
  connect Cases.offline = None /\
  conn (Demo.start Cases.offline Demo.three) = None /\
  (forall j a,
     In (Msg j a)
        (trace (script Cases.offline 5 (Demo.start Cases.offline Demo.three))) ->
     j = 0%nat /\ ((exists ok, a = Loads ok) \/ (exists l, a = Print l))) /\
  (forall ok,
     ~ In (Alter ok)
         (trace (script Cases.offline 5
                   (Demo.start Cases.offline Demo.three)))) /\
  ~ In Close
      (trace (script Cases.offline 5 (Demo.start Cases.offline Demo.three))) /\
  outcome (script Cases.offline 5 (Demo.start Cases.offline Demo.three))
  <> Ok true.
Proof.
  assert (H1 : connect Cases.offline = None) by reflexivity.
  assert (H2 : conn (Demo.start Cases.offline Demo.three) = None)
    by reflexivity.
  split; [exact H1|]. split; [exact H2|].
  exact (without_connection_nothing_is_deleted Cases.offline 5
           (Demo.start Cases.offline Demo.three) H1 H2).
Defined.

(** X16. The bound put on [while True] does not matter once the receive
    loop has ended: if a cycle unrolled [fuel] times saw an empty
    response or a failing call, unrolling it further gives the same
    events, the same final queue and store and the same outcome. *)
Theorem drain_does_not_depend_on_fuel (sv : services) (fuel extra : nat)
    (w : world sv) :
  outcome (drain sv fuel w) <> Ok false ->
  drain sv (fuel + extra) w = drain sv fuel w.
Proof.
  unfold drain, bind. intros H.
  rewrite receive_all_more_fuel; [reflexivity|].
  intros Hnone.
  destruct (receive_all sv fuel [] w) as [[t1 w1] r1]; cbn in Hnone.
  subst r1. now apply H.
Qed.

Lemma drain_does_not_depend_on_fuel_witness :
  outcome (drain Demo.healthy 2 (Demo.online Demo.healthy Demo.three))
  <> Ok false /\
  drain Demo.healthy (2 + 40) (Demo.online Demo.healthy Demo.three)
  = drain Demo.healthy 2 (Demo.online Demo.healthy Demo.three).
Proof.
  assert (H : outcome (drain Demo.healthy 2
                         (Demo.online Demo.healthy Demo.three)) <> Ok false)
    by (vm_compute; discriminate).
  split; [exact H|].
  exact (drain_does_not_depend_on_fuel Demo.healthy 2 40
           (Demo.online Demo.healthy Demo.three) H).
Defined.

(** X17. A pass through the loop body that returns normally did exactly
    this: the body decoded, the row of the decoded body on the store's
    current date was inserted into [user_logins], the insert was
    committed, and then the message's own receipt handle was deleted
    from the queue, which nothing had touched in between. The store and
    the queue it leaves are the ones those three calls returned. *)
Theorem successful_pass_inserts_commits_deletes (sv : services) (i : nat)
    (m : message) (w : world sv) :
  outcome (process_message sv i m w) = Ok tt ->
  exists v s r s1 s2 q',
    json_loads sv (Body m) = Some v /\
    conn w = Some s /\
    insert_row_of v (current_date sv s) = Ok r /\
    insert_row sv s "user_logins" r = (true, s1) /\
    commit sv s1 = (true, s2) /\
    delete_message sv (queue w) (ReceiptHandle m) = (true, q') /\
    final (process_message sv i m w) = World q' (Some s2).
Proof.
  unfold process_message, bind, lift, emit, loads_body, cursor_execute,
    connection_commit, sqs_delete_message, trace, outcome, final.
  run_step; cbn; [|discriminate].
  run_step; cbn; [|discriminate].
  run_step; cbn; [|discriminate].
  run_step; cbn; [|discriminate].
  destruct (py_get_dict _ _ _ Hget) as [d ->]. cbn.
  run_step; cbn; [|discriminate].
  pose proof (insert_row_of_steps _ _ _ _ (current_date sv s) Hmask Hmask0 Hget)
    as Hrow.
  run_step; cbn; [|discriminate].
  run_step; cbn; [|discriminate].
  run_step; cbn; [|discriminate].
  intros _. do 6 eexists.
  repeat (split; [eassumption || reflexivity|]). reflexivity.
Qed.

Lemma successful_pass_inserts_commits_deletes_witness :
  outcome (process_message Demo.healthy 0 Demo.m1
             (Demo.online Demo.healthy Cases.one)) = Ok tt /\
  exists v s r s1 s2 q',
    json_loads Demo.healthy (Body Demo.m1) = Some v /\
    conn (Demo.online Demo.healthy Cases.one) = Some s /\
    insert_row_of v (current_date Demo.healthy s) = Ok r /\
    insert_row Demo.healthy s "user_logins" r = (true, s1) /\
    commit Demo.healthy s1 = (true, s2) /\
    delete_message Demo.healthy (queue (Demo.online Demo.healthy Cases.one))
      (ReceiptHandle Demo.m1) = (true, q') /\
    final (process_message Demo.healthy 0 Demo.m1
             (Demo.online Demo.healthy Cases.one)) = World q' (Some s2).
Proof.
  assert (H : outcome (process_message Demo.healthy 0 Demo.m1
                         (Demo.online Demo.healthy Cases.one)) = Ok tt)
    by (vm_compute; reflexivity).
  split; [exact H|].
  exact (successful_pass_inserts_commits_deletes Demo.healthy 0 Demo.m1
           (Demo.online Demo.healthy Cases.one) H).
Defined.

(* ================================================================== *)
(** ** The world of each pass *)

Lemma process_messages_cons (sv : services) (i : nat) (m : message)
    (rest : list message) (w : world sv) :
  process_messages sv i (m :: rest) w =
  match process_message sv i m w with
  | (t1, w1, Ok _) =>
      let '(t2, w2, r) := process_messages sv (S i) rest w1 in
      (t1 ++ t2, w2, r)
  | (t1, w1, Raise e) => (t1, w1, Raise e)
  end.
Proof. reflexivity. Qed.

Lemma process_message_about (sv : services) (i : nat) (m : message)
    (w : world sv) :
  Forall (fun ev => exists a, ev = Msg i a) (trace (process_message sv i m w)).
Proof. eapply message_trace_about, process_message_trace. Qed.

Lemma process_messages_later (sv : services) (i : nat) (msgs : list message)
    (w : world sv) (j : nat) :
  (j < i)%nat -> events_of j (trace (process_messages sv i msgs w)) = [].
Proof.
  intros Hj. apply events_of_other.
  pose proof (process_messages_trace sv msgs i w) as H.
  apply loop_trace_index in H. eapply Forall_impl; [|exact H].
  intros ev (k & a & -> & Hk). exists k, a. split; [reflexivity | lia].
Qed.

(** The events about position [i + j] are the pass over the message at
    that position, started in the world the earlier passes left. *)
Lemma process_messages_pass (sv : services) (msgs : list message) :
  forall (i : nat) (w : world sv) (j : nat) (m : message),
    nth_error msgs j = Some m ->
    events_of (i + j) (trace (process_messages sv i msgs w)) = [] \/
    events_of (i + j) (trace (process_messages sv i msgs w)) =
    trace (process_message sv (i + j) m
             (final (process_messages sv i (firstn j msgs) w))).
Proof.
  induction msgs as [|m0 rest IH]; intros i w j m Hnth.
  - destruct j; discriminate.
  - destruct j as [|j]; simpl in Hnth.
    + injection Hnth as ->. rewrite Nat.add_0_r. right.
      rewrite process_messages_cons. cbn [firstn process_messages ret final fst snd].
      pose proof (process_message_about sv i m w) as Hm.
      destruct (process_message sv i m w) as [[t1 w1] [[]|e]]; cbn in Hm |- *.
      * pose proof (process_messages_later sv (S i) rest w1 i ltac:(lia)) as H2.
        destruct (process_messages sv (S i) rest w1) as [[t2 w2] r2].
        cbn in H2 |- *. unfold events_of in *. rewrite filter_app, H2, app_nil_r.
        now apply events_of_same.
      * now apply events_of_same.
    + cbn [firstn]. rewrite !process_messages_cons.
      pose proof (process_message_about sv i m0 w) as Hm.
      destruct (process_message sv i m0 w) as [[t1 w1] [[]|e]]; cbn in Hm.
      * specialize (IH (S i) w1 j m Hnth).
        replace (S i + j)%nat with (i + S j)%nat in IH by lia.
        assert (H1 : events_of (i + S j) t1 = []).
        { apply events_of_other. eapply Forall_impl; [|exact Hm].
          intros ev [a ->]. exists i, a. split; [reflexivity | lia]. }
        destruct (process_messages sv (S i) rest w1) as [[t2 w2] r2].
        destruct (process_messages sv (S i) (firstn j rest) w1)
          as [[t3 w3] r3].
        cbn in IH |- *. unfold events_of in *.
        rewrite filter_app, H1. exact IH.
      * left. cbn. apply events_of_other. eapply Forall_impl; [|exact Hm].
        intros ev [a ->]. exists i, a. split; [reflexivity | lia].
Qed.

Lemma drain_unfold (sv : services) (fuel : nat) (w : world sv) :
  drain sv fuel w =
  match receive_all sv fuel [] w with
  | (t1, w1, Ok (Some msgs)) =>
      let '(t2, w2, r) := process_messages sv 0 msgs w1 in
      (t1 ++ t2, w2, match r with Ok _ => Ok true | Raise e => Raise e end)
  | (t1, w1, Ok None) => (t1, w1, Ok false)
  | (t1, w1, Raise e) => (t1, w1, Raise e)
  end.
Proof.
  unfold drain, bind.
  destruct (receive_all sv fuel [] w) as [[t1 w1] [[msgs|]|e]]; cbn;
    try reflexivity.
  - destruct (process_messages sv 0 msgs w1) as [[t2 w2] [[]|e2]]; cbn;
      now rewrite ?app_nil_r.
  - now rewrite app_nil_r.
Qed.

(** In a drain cycle the events about position [j] are the pass over the
    [j]-th received message, started in [drain_pass_world]. *)
Lemma drain_pass (sv : services) (fuel : nat) (w : world sv) (j : nat)
    (m : message) :
  nth_error (received_messages (trace (drain sv fuel w))) j = Some m ->
  events_of j (trace (drain sv fuel w)) = [] \/
  events_of j (trace (drain sv fuel w)) =
  trace (process_message sv j m (drain_pass_world sv fuel w j)).
Proof.
  unfold drain_pass_world, pass_world, loop_start.
  rewrite drain_unfold.
  pose proof (receive_all_shape sv fuel [] w) as Hshape. cbn in Hshape.
  destruct (receive_all sv fuel [] w) as [[t1 w1] r1]; cbn in Hshape.
  destruct Hshape as (Hall & _ & Hout).
  pose proof (events_of_receives j t1 Hall) as Ht1.
  destruct r1 as [[msgs|]|e]; cbn [trace final fst snd].
  - destruct Hout as [-> _].
    pose proof (process_messages_trace sv (received_messages t1) 0 w1) as Hloop.
    pose proof (process_messages_pass sv (received_messages t1) 0 w1 j m)
      as Hpass.
    destruct (process_messages sv 0 (received_messages t1) w1)
      as [[t2 w2] r2]; cbn in Hloop, Hpass |- *.
    rewrite received_messages_app,
      (received_messages_none t2 (loop_trace_no_receive _ _ _ _ _ Hloop)),
      app_nil_r.
    intros Hnth. unfold events_of in *. rewrite filter_app, Ht1. cbn [app].
    exact (Hpass Hnth).
  - intros _. now left.
  - intros _. now left.
Qed.

(** A pass that calls the delete did so last, after inserting the row of
    the decoded body into the store it started with and committing it,
    and left the store of that commit and the queue of that delete. *)
Lemma process_message_delete (sv : services) (i : nat) (m : message)
    (w : world sv) (h : pystr) (ok : bool) :
  In (Msg i (Delete h ok)) (trace (process_message sv i m w)) ->
  exists v s r s1 s2 q' l,
    json_loads sv (Body m) = Some v /\
    conn w = Some s /\
    insert_row_of v (current_date sv s) = Ok r /\
    insert_row sv s "user_logins" r = (true, s1) /\
    commit sv s1 = (true, s2) /\
    h = ReceiptHandle m /\
    delete_message sv (queue w) h = (ok, q') /\
    final (process_message sv i m w) = World q' (Some s2) /\
    trace (process_message sv i m w) =
    [Msg i (Loads true); Msg i (Print l); Msg i (Execute r true);
     Msg i (Commit true); Msg i (Delete h ok)].
Proof.
  unfold process_message, bind, lift, emit, loads_body, cursor_execute,
    connection_commit, sqs_delete_message, trace, outcome, final.
  run_step; cbn; [|intros H; in_trace H].
  run_step; cbn; [|intros H; in_trace H].
  run_step; cbn; [|intros H; in_trace H].
  run_step; cbn; [|intros H; in_trace H].
  destruct (py_get_dict _ _ _ Hget) as [d ->]. cbn.
  run_step; cbn; [|intros H; in_trace H].
  pose proof (insert_row_of_steps _ _ _ _ (current_date sv s) Hmask Hmask0 Hget)
    as Hrow.
  run_step; cbn; [|intros H; in_trace H].
  run_step; cbn; [|intros H; in_trace H].
  run_step; cbn; intros H; in_trace H; injection H as <- <-;
    do 7 eexists;
    repeat (split; [eassumption || reflexivity|]); reflexivity.
Qed.

(** A pass whose insert or commit failed called no delete and left the
    queue as it found it. *)
Lemma process_message_failed (sv : services) (i : nat) (m : message)
    (w : world sv) :
  (exists r, In (Msg i (Execute r false)) (trace (process_message sv i m w))) \/
  In (Msg i (Commit false)) (trace (process_message sv i m w)) ->
  queue (final (process_message sv i m w)) = queue w /\
  exists e, outcome (process_message sv i m w) = Raise e.
Proof.
  unfold process_message, bind, lift, emit, loads_body, cursor_execute,
    connection_commit, sqs_delete_message, trace, outcome, final.
  run_step; cbn; [|intros [[r H]|H]; in_trace H].
  run_step; cbn; [|intros [[r H]|H]; in_trace H].
  run_step; cbn; [|intros [[r H]|H]; in_trace H].
  run_step; cbn; [|intros [[r H]|H]; in_trace H].
  destruct (py_get_dict _ _ _ Hget) as [d ->]. cbn.
  run_step; cbn; [|intros [[r H]|H]; in_trace H].
  run_step; cbn; [|intros _; eauto].
  run_step; cbn; [|intros _; eauto].
  run_step; cbn; intros [[r H]|H]; in_trace H.
Qed.

(** C1. In a drain cycle, whatever the services answer: a delete call
    for the message at position [j] carries that message's own receipt
    handle and comes after the row built from that message's body was
    inserted into the store and committed, both with success, in the
    world in which the pass over the message started; the pass leaves
    the store that commit returned and the queue that delete returned.
    Once the commit for the message has succeeded its delete is called.
    If its insert or its commit failed, its delete is never called and
    the pass leaves the queue as it found it. *)
Theorem delete_iff_insert_committed (sv : services) (fuel : nat)
    (w : world sv) (j : nat) :
  (forall h ok,
     In (Msg j (Delete h ok)) (trace (drain sv fuel w)) ->
     exists m v s r s1 s2 q',
       nth_error (received_messages (trace (drain sv fuel w))) j = Some m /\
       h = ReceiptHandle m /\
       json_loads sv (Body m) = Some v /\
       conn (drain_pass_world sv fuel w j) = Some s /\
       insert_row_of v (current_date sv s) = Ok r /\
       insert_row sv s "user_logins" r = (true, s1) /\
       commit sv s1 = (true, s2) /\
       delete_message sv (queue (drain_pass_world sv fuel w j)) h = (ok, q') /\
       final (process_message sv j m (drain_pass_world sv fuel w j))
       = World q' (Some s2) /\
       before (Msg j (Execute r true)) (Msg j (Commit true))
         (trace (drain sv fuel w)) /\
       before (Msg j (Commit true)) (Msg j (Delete h ok))
         (trace (drain sv fuel w))) /\
  (In (Msg j (Commit true)) (trace (drain sv fuel w)) ->
   exists h ok, In (Msg j (Delete h ok)) (trace (drain sv fuel w))) /\
  ((exists r, In (Msg j (Execute r false)) (trace (drain sv fuel w))) \/
   In (Msg j (Commit false)) (trace (drain sv fuel w)) ->
   (forall h ok, ~ In (Msg j (Delete h ok)) (trace (drain sv fuel w))) /\
   (forall m,
      nth_error (received_messages (trace (drain sv fuel w))) j = Some m ->
      queue (final (process_message sv j m (drain_pass_world sv fuel w j)))
      = queue (drain_pass_world sv fuel w j))).
Proof.
  destruct (drain_events_of sv fuel w j) as [Hnone | (m & b & Hnth & Hmt)].
  - split; [|split].
    + intros h ok H. apply in_events_of in H. rewrite Hnone in H. destruct H.
    + intros H. apply in_events_of in H. rewrite Hnone in H. destruct H.
    + intros [[r H]|H]; apply in_events_of in H; rewrite Hnone in H;
        destruct H.
  - destruct (drain_pass sv fuel w j m Hnth) as [Hnone | Hpass].
    { rewrite Hnone in Hmt. inversion Hmt. }
    split; [|split].
    + intros h ok H. apply in_events_of in H. rewrite Hpass in H.
      destruct (process_message_delete _ _ _ _ _ _ H)
        as (v & s & r & s1 & s2 & q' & l & H1 & H2 & H3 & H4 & H5 & H6 & H7
            & H8 & H9).
      exists m, v, s, r, s1, s2, q'. repeat (split; [assumption|]).
      rewrite <- Hpass in H9. unfold events_of in H9.
      split; apply (before_filter (about j)); rewrite H9.
      * now exists [Msg j (Loads true); Msg j (Print l)], [],
          [Msg j (Delete h ok)].
      * now exists [Msg j (Loads true); Msg j (Print l);
                    Msg j (Execute r true)], [], [].
    + intros H. apply in_events_of in H.
      destruct (message_trace_commit _ _ _ _ _ Hmt H) as [ok Hd].
      exists (ReceiptHandle m), ok. apply (proj2 (in_events_of _ _ _)), Hd.
    + intros H. split.
      * intros h ok Hd. apply in_events_of in Hd.
        refine (message_trace_failed _ _ _ _ _ Hmt _ h ok Hd).
        destruct H as [[r H]|H]; [left; exists r | right];
          apply (proj1 (in_events_of _ _ _)), H.
      * intros m' Hnth'. rewrite Hnth in Hnth'. injection Hnth' as <-.
        apply process_message_failed. rewrite <- Hpass.
        destruct H as [[r H]|H]; [left; exists r | right];
          apply (proj1 (in_events_of _ _ _)), H.
Qed.

Lemma delete_iff_insert_committed_witness :
  In (Msg 0 (Delete (py "h1") true))
     (trace (drain Demo.healthy 5 (Demo.online Demo.healthy Demo.three))) /\
  exists m v s r s1 s2 q',
    nth_error (received_messages
                 (trace (drain Demo.healthy 5
                           (Demo.online Demo.healthy Demo.three)))) 0 = Some m /\
    py "h1" = ReceiptHandle m /\
    json_loads Demo.healthy (Body m) = Some v /\
    conn (drain_pass_world Demo.healthy 5
            (Demo.online Demo.healthy Demo.three) 0) = Some s /\
    insert_row_of v (current_date Demo.healthy s) = Ok r /\
    insert_row Demo.healthy s "user_logins" r = (true, s1) /\
    commit Demo.healthy s1 = (true, s2) /\
    delete_message Demo.healthy
      (queue (drain_pass_world Demo.healthy 5
                (Demo.online Demo.healthy Demo.three) 0)) (py "h1")
    = (true, q') /\
    final (process_message Demo.healthy 0 m
             (drain_pass_world Demo.healthy 5
                (Demo.online Demo.healthy Demo.three) 0))
    = World q' (Some s2) /\
    before (Msg 0 (Execute r true)) (Msg 0 (Commit true))
      (trace (drain Demo.healthy 5 (Demo.online Demo.healthy Demo.three))) /\
    before (Msg 0 (Commit true)) (Msg 0 (Delete (py "h1") true))
      (trace (drain Demo.healthy 5 (Demo.online Demo.healthy Demo.three))).
Proof.
  assert (H : In (Msg 0 (Delete (py "h1") true))
                (trace (drain Demo.healthy 5
                          (Demo.online Demo.healthy Demo.three))))
    by (vm_compute; in_list).
  split; [exact H|].
  exact (proj1 (delete_iff_insert_committed Demo.healthy 5
                  (Demo.online Demo.healthy Demo.three) 0) _ _ H).
Defined.

(** On the batch of three the first pass leaves the row committed in the
    store and the handle deleted from the queue. *)
Example first_pass_of_the_batch_of_three :
  let w1 := final (process_message Demo.healthy 0 Demo.m1
                     (drain_pass_world Demo.healthy 5
                        (Demo.online Demo.healthy Demo.three) 0)) in
  Demo.deleted (queue w1) = [py "h1"] /\
  option_map Demo.committed (conn w1) = Some [Cases.login_row] /\
  option_map Demo.pending (conn w1) = Some [].
Proof. vm_compute. auto. Qed.

(* ================================================================== *)
(** ** The record handed to the insert *)

Lemma process_message_unmaskable (sv : services) (i : nat) (m : message)
    (w : world sv) (d : pydict) (today : Z) (e : exn) :
  json_loads sv (Body m) = Some (PDict d) ->
  insert_row_of (PDict d) today = Raise e ->
  process_message sv i m w = ([Msg i (Loads true)], w, Raise e).
Proof.
  intros Hloads Hrow.
  unfold process_message, bind, lift, loads_body. rewrite Hloads.
  unfold insert_row_of in Hrow.
  destruct (mask_field (py "device_id") (PDict d)) as [v1|e1] eqn:H1;
    cbn [rbind] in Hrow.
  - destruct (mask_field_kind _ _ _ H1) as [(d0 & d1 & _ & ->) | [_ Hno]];
      [|now contradiction (Hno d)].
    destruct (mask_field (py "ip") (PDict d1)) as [v2|e2] eqn:H2;
      cbn [rbind] in Hrow.
    + destruct (mask_field_kind _ _ _ H2) as [(d1' & d2 & _ & ->) | [_ Hno]];
        [|now contradiction (Hno d1)].
      discriminate Hrow.
    + now injection Hrow as ->.
  - now injection Hrow as ->.
Qed.

Lemma spec_masked_record_ok (d : pydict) (today : Z) :
  (dict_lookup (py "device_id") d = None \/
   exists raw h, dict_lookup (py "device_id") d = Some raw /\
                 mask_pii raw = Ok h) ->
  (dict_lookup (py "ip") d = None \/
   exists raw h, dict_lookup (py "ip") d = Some raw /\ mask_pii raw = Ok h) ->
  exists r, spec_masked_record d today = Ok r.
Proof.
  intros Hdev Hip. unfold spec_masked_record, spec_masked.
  destruct Hdev as [-> | (raw & h & -> & ->)];
    destruct Hip as [-> | (raw2 & h2 & -> & ->)]; cbn [rbind]; eauto.
Qed.

Lemma spec_masked_record_raises (d : pydict) (today : Z) (raw : pyval)
    (e : exn) :
  (dict_lookup (py "device_id") d = Some raw /\ mask_pii raw = Raise e) \/
  (dict_lookup (py "ip") d = Some raw /\ mask_pii raw = Raise e) ->
  exists e', spec_masked_record d today = Raise e'.
Proof.
  unfold spec_masked_record, spec_masked.
  intros [[-> ->] | [Hip He]]; cbn [rbind]; [eauto|].
  destruct (dict_lookup (py "device_id") d) as [raw'|];
    [destruct (mask_pii raw'); cbn [rbind]; [|eauto]|cbn [rbind]];
    rewrite Hip, He; cbn [rbind]; eauto.
Qed.

Lemma spec_masked_record_keys (d : pydict) (today : Z) (r : row) :
  spec_masked_record d today = Ok r -> map fst r = st_columns insert_query.
Proof.
  unfold spec_masked_record.
  destruct (spec_masked (dict_lookup (py "device_id") d)); [|discriminate].
  destruct (spec_masked (dict_lookup (py "ip") d)); [|discriminate].
  cbn [rbind]. now intros [= <-].
Qed.

(** C5 (as amended). For a body that parses to an object, every record
    the loop body hands to the insert has the seven columns of the
    statement, with [masked_device_id] (respectively [masked_ip]) null
    when [device_id] (respectively [ip]) is absent and equal to
    [mask_pii] of the raw value when it is present. An absent field
    raises nothing: when the connection is open and each of the two
    fields is absent or can be masked, the insert is executed, with the
    record of the specification. When a field is present and cannot be
    masked, the loop body raises and no record is handed to the
    insert. *)
Theorem masked_record_of_login_event (sv : services) (i : nat) (m : message)
    (w : world sv) (d : pydict) :
  json_loads sv (Body m) = Some (PDict d) ->
  (forall r ok,
     In (Msg i (Execute r ok)) (trace (process_message sv i m w)) ->
     map fst r = st_columns insert_query /\
     (dict_lookup (py "device_id") d = None ->
      column "masked_device_id" r = Some (SqlParam PNone)) /\
     (forall raw, dict_lookup (py "device_id") d = Some raw ->
        exists h, mask_pii raw = Ok h /\
                  column "masked_device_id" r = Some (SqlParam h)) /\
     (dict_lookup (py "ip") d = None ->
      column "masked_ip" r = Some (SqlParam PNone)) /\
     (forall raw, dict_lookup (py "ip") d = Some raw ->
        exists h, mask_pii raw = Ok h /\
                  column "masked_ip" r = Some (SqlParam h))) /\
  (forall s,
     conn w = Some s ->
     (dict_lookup (py "device_id") d = None \/
      exists raw h, dict_lookup (py "device_id") d = Some raw /\
                    mask_pii raw = Ok h) ->
     (dict_lookup (py "ip") d = None \/
      exists raw h, dict_lookup (py "ip") d = Some raw /\
                    mask_pii raw = Ok h) ->
     exists r ok,
       spec_masked_record d (current_date sv s) = Ok r /\
       In (Msg i (Execute r ok)) (trace (process_message sv i m w))) /\
  (forall raw e,
     (dict_lookup (py "device_id") d = Some raw /\ mask_pii raw = Raise e) \/
     (dict_lookup (py "ip") d = Some raw /\ mask_pii raw = Raise e) ->
     exists e', process_message sv i m w = ([Msg i (Loads true)], w, Raise e')).
Proof.
  intros Hloads. split; [|split].
  - intros r ok H.
    destruct (process_message_execute sv i m w r ok H)
      as (v & s & Hv & _ & Hrow & _).
    rewrite Hloads in Hv. injection Hv as <-.
    rewrite insert_row_matches_spec in Hrow.
    split; [eapply spec_masked_record_keys; eauto|].
    destruct (spec_masked_record_masked_columns d _ r Hrow)
      as [(dev & Hdev & Cdev) (ip & Hip & Cip)].
    repeat split.
    + intros Habs. rewrite Habs in Hdev. injection Hdev as <-. exact Cdev.
    + intros raw Hraw. rewrite Hraw in Hdev. exists dev. auto.
    + intros Habs. rewrite Habs in Hip. injection Hip as <-. exact Cip.
    + intros raw Hraw. rewrite Hraw in Hip. exists ip. auto.
  - intros s Hconn Hdev Hip.
    destruct (spec_masked_record_ok d (current_date sv s) Hdev Hip) as [r Hr].
    pose proof Hr as Hr'. rewrite <- insert_row_matches_spec in Hr'.
    destruct (process_message_reaches_execute sv i m w _ s r Hloads Hconn Hr')
      as [ok Hin].
    exists r, ok. auto.
  - intros raw e H.
    destruct (spec_masked_record_raises d 0 raw e H) as [e' He'].
    exists e'. eapply process_message_unmaskable; [exact Hloads|].
    rewrite insert_row_matches_spec. exact He'.
Qed.

Lemma masked_record_of_login_event_witness :
  json_loads Demo.healthy (Body Demo.m3) = Some (PDict Demo.no_pii) /\
  conn (Demo.online Demo.healthy Demo.empty)
  = Some (Demo.StoreState 19999 [] []) /\
  dict_lookup (py "device_id") Demo.no_pii = None /\
  dict_lookup (py "ip") Demo.no_pii = None /\
  exists r ok,
    spec_masked_record Demo.no_pii 19999 = Ok r /\
    In (Msg 2 (Execute r ok))
       (trace (process_message Demo.healthy 2 Demo.m3
                 (Demo.online Demo.healthy Demo.empty))).
Proof.
  assert (H1 : json_loads Demo.healthy (Body Demo.m3)
               = Some (PDict Demo.no_pii)) by reflexivity.
  assert (H2 : conn (Demo.online Demo.healthy Demo.empty)
               = Some (Demo.StoreState 19999 [] [])) by reflexivity.
  assert (H3 : dict_lookup (py "device_id") Demo.no_pii = None)
    by reflexivity.
  assert (H4 : dict_lookup (py "ip") Demo.no_pii = None) by reflexivity.
  split; [exact H1|]. split; [exact H2|]. split; [exact H3|].
  split; [exact H4|].
  exact (proj1 (proj2
           (masked_record_of_login_event Demo.healthy 2 Demo.m3
              (Demo.online Demo.healthy Demo.empty) Demo.no_pii H1))
           _ H2 (or_introl H3) (or_introl H4)).
Defined.

(** C5 as stated fails. The body with no [device_id] and an [ip] that is
    a string holding a lone surrogate is a LoginEvent in which
    [device_id] is absent, yet the loop body raises [UnicodeEncodeError]
    and hands no record to the insert, so there is no record whose
    [masked_device_id] is null. *)
Lemma absent_device_id_yet_an_error :
  json_loads Cases.lenient (Body Cases.m_surrogate_ip)
  = Some (PDict Cases.surrogate_ip) /\
  dict_lookup (py "device_id") Cases.surrogate_ip = None /\
  process_message Cases.lenient 0 Cases.m_surrogate_ip
    (Demo.online Cases.lenient Demo.empty)
  = ([Msg 0 (Loads true)], Demo.online Cases.lenient Demo.empty,
     Raise UnicodeEncodeError).
Proof. repeat split. Qed.

(* ================================================================== *)
(** ** The lines of a run *)

Lemma events_of_outside (j : nat) (t : list event) :
  Forall outside_the_cycle t -> events_of j t = [].
Proof.
  unfold events_of. induction 1 as [|ev t Hev _ IH]; simpl; [reflexivity|].
  destruct ev; try destruct Hev; exact IH.
Qed.

Lemma received_outside (t : list event) :
  Forall outside_the_cycle t -> received_messages t = [].
Proof.
  induction 1 as [|ev t Hev _ IH]; simpl; [reflexivity|].
  destruct ev; try destruct Hev; exact IH.
Qed.

Lemma before_app_r {A} (a b : A) (l1 l2 : list A) :
  before a b l2 -> before a b (l1 ++ l2).
Proof.
  intros (p & q & s & ->). exists (l1 ++ p), q, s. now rewrite <- app_assoc.
Qed.

Lemma before_app_l {A} (a b : A) (l1 l2 : list A) :
  before a b l1 -> before a b (l1 ++ l2).
Proof.
  intros (p & q & s & ->). exists p, q, (s ++ l2).
  now rewrite <- !app_assoc, <- !app_comm_cons, <- app_assoc.
Qed.

Lemma before_app {A} (a b : A) (l1 l2 : list A) :
  In a l1 -> In b l2 -> before a b (l1 ++ l2).
Proof.
  intros Ha Hb. apply in_split in Ha as (p & q & ->).
  apply in_split in Hb as (p2 & q2 & ->).
  exists p, (q ++ p2), q2. rewrite <- !app_assoc. reflexivity.
Qed.

(** The script is the drain cycle started in [cycle_start], with events
    that are not about messages before and after it. *)
Lemma script_messages (sv : services) (fuel : nat) (w : world sv) :
  exists pre post,
    trace (script sv fuel w) =
    pre ++ trace (drain sv fuel (cycle_start sv w)) ++ post /\
    Forall outside_the_cycle pre /\ Forall outside_the_cycle post.
Proof.
  assert (Hc : exists tc wc,
             connect_database sv w = (tc, wc, Ok tt) /\
             Forall outside_the_cycle tc).
  { unfold connect_database. destruct (connect sv);
      eexists; eexists; (split; [reflexivity|]); repeat constructor. }
  destruct Hc as (tc & wc & Hc & Htc).
  destruct (alter_shape sv wc) as (ta & wa & Ha & Hta & _ & _).
  assert (Hstart : cycle_start sv w = wa).
  { unfold cycle_start. rewrite Hc. cbn. now rewrite Ha. }
  rewrite Hstart, (script_unfold sv fuel w wc wa tc ta Hc Ha).
  assert (Hpre : Forall outside_the_cycle (tc ++ ta)).
  { apply Forall_app. split; [exact Htc|].
    eapply Forall_impl; [|exact Hta]. now intros ev [H _]. }
  destruct (drain sv fuel wa) as [[t w2] [[|]|e]]; cbn.
  - destruct (conn w2); cbn.
    + exists (tc ++ ta), closing. repeat split; auto. repeat constructor.
    + exists (tc ++ ta), []. rewrite app_nil_r. repeat split; auto.
  - exists (tc ++ ta), []. rewrite app_nil_r. repeat split; auto.
  - exists (tc ++ ta), []. rewrite app_nil_r. repeat split; auto.
Qed.

Lemma script_events_of (sv : services) (fuel : nat) (w : world sv) (j : nat) :
  events_of j (trace (script sv fuel w)) =
  events_of j (trace (drain sv fuel (cycle_start sv w))) /\
  received_messages (trace (script sv fuel w)) =
  received_messages (trace (drain sv fuel (cycle_start sv w))).
Proof.
  destruct (script_messages sv fuel w) as (pre & post & -> & Hpre & Hpost).
  split.
  - unfold events_of. rewrite !filter_app.
    fold (events_of j pre) (events_of j post).
    now rewrite (events_of_outside j pre Hpre),
      (events_of_outside j post Hpost), app_nil_r.
  - now rewrite !received_messages_app, (received_outside pre Hpre),
      (received_outside post Hpost), app_nil_r.
Qed.

(** A pass whose body decodes and masks prints the masked body. *)
Lemma process_message_prints (sv : services) (i : nat) (m : message)
    (w : world sv) (v v1 : pyval) (d : pydict) :
  json_loads sv (Body m) = Some v ->
  mask_field (py "device_id") v = Ok v1 ->
  mask_field (py "ip") v1 = Ok (PDict d) ->
  In (Msg i (Print (masked_line d))) (trace (process_message sv i m w)).
Proof.
  intros Hloads H1 H2.
  unfold process_message, bind, lift, emit, loads_body, cursor_execute,
    connection_commit, sqs_delete_message, trace.
  rewrite Hloads. cbn -[mask_field py In]. rewrite H1.
  cbn -[mask_field py In]. rewrite H2. cbn -[In].
  run_step; cbn -[In]; [|in_list].
  run_step; cbn -[In]; [|in_list].
  run_step; cbn -[In]; [|in_list].
  run_step; cbn -[In]; in_list.
Qed.

Lemma message_trace_prints (sv : services) (i : nat) (m : message)
    (t : list event) (b : bool) :
  message_trace sv i m t b ->
  (count_events is_print t <= 1)%nat /\
  forall r ok, In (Msg i (Execute r ok)) t ->
    exists l, before (Msg i (Print l)) (Msg i (Execute r ok)) t.
Proof.
  intros Hmt. destruct Hmt; (split; [cbn; lia|]); intros r' ok' Hin;
    in_trace Hin; injection Hin as <- <-; exists (masked_line d).
  - now exists [Msg i (Loads true)], [], [].
  - now exists [Msg i (Loads true)], [], [Msg i (Commit false)].
  - now exists [Msg i (Loads true)], [],
      [Msg i (Commit true); Msg i (Delete (ReceiptHandle m) false)].
  - now exists [Msg i (Loads true)], [],
      [Msg i (Commit true); Msg i (Delete (ReceiptHandle m) true)].
Qed.

(** C8 (as amended). The script reports no counts. Every line it writes
    is one of its five notices, bare or followed by the exception it
    caught, or a ["Masked message:"] line, and none carries the four
    counts. A ["Masked message:"] line about position [j] carries the
    body of the [j]-th received message after both masking steps; it is
    written whenever the pass over that message started and its body
    decoded and masked; there is at most one such line per position; and
    it comes before the insert of that message. *)
Theorem script_prints_no_counts (sv : services) (fuel : nat) (w : world sv) :
  (forall l, In l (stdout (trace (script sv fuel w))) ->
             script_line l /\ forall c, ~ reports c l) /\
  (forall j l,
     In (Msg j (Print l)) (trace (script sv fuel w)) ->
     exists m v v1 d,
       nth_error (received_messages (trace (script sv fuel w))) j = Some m /\
       json_loads sv (Body m) = Some v /\
       mask_field (py "device_id") v = Ok v1 /\
       mask_field (py "ip") v1 = Ok (PDict d) /\
       l = masked_line d) /\
  (forall j m v v1 d,
     nth_error (received_messages (trace (script sv fuel w))) j = Some m ->
     In (Msg j (Loads true)) (trace (script sv fuel w)) ->
     json_loads sv (Body m) = Some v ->
     mask_field (py "device_id") v = Ok v1 ->
     mask_field (py "ip") v1 = Ok (PDict d) ->
     In (Msg j (Print (masked_line d))) (trace (script sv fuel w))) /\
  (forall j,
     (count_events is_print (events_of j (trace (script sv fuel w))) <= 1)%nat) /\
  (forall j r ok,
     In (Msg j (Execute r ok)) (trace (script sv fuel w)) ->
     exists l, before (Msg j (Print l)) (Msg j (Execute r ok))
                 (trace (script sv fuel w))).
Proof.
  split; [|split; [|split; [|split]]].
  - intros l H. pose proof (script_lines sv fuel w) as Hall.
    rewrite Forall_forall in Hall. specialize (Hall l H).
    split; [exact Hall|]. intros c. now apply script_line_no_report.
  - intros j l H. apply in_events_of in H.
    destruct (script_events_of sv fuel w j) as [He Hr].
    rewrite He in H. rewrite Hr.
    destruct (drain_events_of sv fuel (cycle_start sv w) j)
      as [Hnone | (m & b & Hnth & _)]; [rewrite Hnone in H; destruct H|].
    destruct (drain_pass sv fuel (cycle_start sv w) j m Hnth)
      as [Hnone | Hpass]; [rewrite Hnone in H; destruct H|].
    rewrite Hpass in H.
    destruct (process_message_print _ _ _ _ _ H)
      as (v & v1 & d & H1 & H2 & H3 & ->).
    exists m, v, v1, d. auto.
  - intros j m v v1 d Hnth Hin Hloads H1 H2.
    apply in_events_of in Hin. apply in_events_of.
    destruct (script_events_of sv fuel w j) as [He Hr].
    rewrite He in Hin |- *. rewrite Hr in Hnth.
    destruct (drain_pass sv fuel (cycle_start sv w) j m Hnth)
      as [Hnone | Hpass]; [rewrite Hnone in Hin; destruct Hin|].
    rewrite Hpass. eapply process_message_prints; eauto.
  - intros j. destruct (script_events_of sv fuel w j) as [-> _].
    destruct (drain_events_of sv fuel (cycle_start sv w) j)
      as [-> | (m & b & _ & Hmt)]; [cbn; lia|].
    now destruct (message_trace_prints _ _ _ _ _ Hmt).
  - intros j r ok H. apply in_events_of in H.
    destruct (script_events_of sv fuel w j) as [He _].
    destruct (drain_events_of sv fuel (cycle_start sv w) j)
      as [Hnone | (m & b & _ & Hmt)];
      [rewrite He, Hnone in H; destruct H|].
    rewrite <- He in Hmt.
    destruct (message_trace_prints _ _ _ _ _ Hmt) as [_ Hb].
    destruct (Hb r ok H) as [l Hl]. exists l.
    eapply before_filter. exact Hl.
Qed.

Lemma script_prints_no_counts_witness :
  In (Line "Connected to PostgreSQL database" [])
     (stdout (trace (script Demo.healthy 5
                       (Demo.start Demo.healthy Demo.three)))) /\
  script_line (Line "Connected to PostgreSQL database" []) /\
  forall c, ~ reports c (Line "Connected to PostgreSQL database" []).
Proof.
  assert (H : In (Line "Connected to PostgreSQL database" [])
                (stdout (trace (script Demo.healthy 5
                                  (Demo.start Demo.healthy Demo.three)))))
    by (vm_compute; in_list).
  split; [exact H|].
  exact (proj1 (script_prints_no_counts Demo.healthy 5
                  (Demo.start Demo.healthy Demo.three)) _ H).
Defined.

(* ================================================================== *)
(** ** Digests in the inserted row, order and number of the calls *)

(** X1. In every row the loop body hands to the insert, [masked_ip]
    (respectively [masked_device_id]) holds null when the body has no
    [ip] (respectively [device_id]) and otherwise the SHA-256
    hexadecimal digest, 64 lowercase characters, of the UTF-8 bytes of
    the string the body holds under that key: what is stored is computed
    from the raw value by the hash. *)
Theorem masked_columns_hold_digests (sv : services) (i : nat) (m : message)
    (w : world sv) (r : row) (ok : bool) :
  In (Msg i (Execute r ok)) (trace (process_message sv i m w)) ->
  exists d,
    json_loads sv (Body m) = Some (PDict d) /\
    ((dict_lookup (py "ip") d = None /\
      column "masked_ip" r = Some (SqlParam PNone)) \/
     (exists s bytes,
        dict_lookup (py "ip") d = Some (PStr s) /\
        str_encode s = Some bytes /\
        column "masked_ip" r = Some (SqlParam (PStr (Sha256.hexdigest bytes))) /\
        List.length (Sha256.hexdigest bytes) = 64%nat /\
        Forall (fun c => is_lower_hex c = true) (Sha256.hexdigest bytes))) /\
    ((dict_lookup (py "device_id") d = None /\
      column "masked_device_id" r = Some (SqlParam PNone)) \/
     (exists s bytes,
        dict_lookup (py "device_id") d = Some (PStr s) /\
        str_encode s = Some bytes /\
        column "masked_device_id" r
        = Some (SqlParam (PStr (Sha256.hexdigest bytes))) /\
        List.length (Sha256.hexdigest bytes) = 64%nat /\
        Forall (fun c => is_lower_hex c = true) (Sha256.hexdigest bytes))).
Proof.
  intros H.
  destruct (process_message_execute sv i m w r ok H)
    as (v & s & Hv & _ & Hrow & _).
  destruct (insert_row_of_is_dict _ _ _ Hrow) as [d ->].
  exists d. split; [exact Hv|].
  rewrite insert_row_matches_spec in Hrow.
  destruct (spec_masked_record_masked_columns d _ r Hrow)
    as [(dev & Hdev & Cdev) (ip & Hip & Cip)].
  unfold spec_masked in Hdev, Hip. split.
  - destruct (dict_lookup (py "ip") d) as [raw|].
    + right. destruct (mask_pii_ok _ _ Hip) as (s0 & bytes & -> & Hb & ->).
      exists s0, bytes. split; [reflexivity|]. split; [exact Hb|].
      split; [exact Cip|].
      split; [apply hexdigest_length | apply hex_bytes_lower].
    + left. injection Hip as <-. auto.
  - destruct (dict_lookup (py "device_id") d) as [raw|].
    + right. destruct (mask_pii_ok _ _ Hdev) as (s0 & bytes & -> & Hb & ->).
      exists s0, bytes. split; [reflexivity|]. split; [exact Hb|].
      split; [exact Cdev|].
      split; [apply hexdigest_length | apply hex_bytes_lower].
    + left. injection Hdev as <-. auto.
Qed.

Lemma masked_columns_hold_digests_witness :
  In (Msg 0 (Execute Cases.login_row true))
     (trace (process_message Demo.healthy 0 Demo.m1
               (Demo.online Demo.healthy Demo.empty))) /\
  exists d,
    json_loads Demo.healthy (Body Demo.m1) = Some (PDict d) /\
    ((dict_lookup (py "ip") d = None /\
      column "masked_ip" Cases.login_row = Some (SqlParam PNone)) \/
     (exists s bytes,
        dict_lookup (py "ip") d = Some (PStr s) /\
        str_encode s = Some bytes /\
        column "masked_ip" Cases.login_row
        = Some (SqlParam (PStr (Sha256.hexdigest bytes))) /\
        List.length (Sha256.hexdigest bytes) = 64%nat /\
        Forall (fun c => is_lower_hex c = true) (Sha256.hexdigest bytes))).
Proof.
  assert (H : In (Msg 0 (Execute Cases.login_row true))
                (trace (process_message Demo.healthy 0 Demo.m1
                          (Demo.online Demo.healthy Demo.empty))))
    by (vm_compute; in_list).
  split; [exact H|].
  destruct (masked_columns_hold_digests Demo.healthy 0 Demo.m1
              (Demo.online Demo.healthy Demo.empty) _ _ H)
    as (d & Hd & Hip & _).
  exists d. split; [exact Hd | exact Hip].
Defined.

Lemma loop_trace_ordered (sv : services) (i : nat) (msgs : list message)
    (t : list event) (b : bool) :
  loop_trace sv i msgs t b ->
  forall j a, In (Msg j a) t ->
  forall k, (i <= k < j)%nat ->
  exists m, nth_error msgs (k - i) = Some m /\
            before (Msg k (Delete (ReceiptHandle m) true)) (Msg j a) t.
Proof.
  induction 1 as [i | i m0 rest t Hm | i m0 rest t1 t2 b Hm Hrest IH];
    intros j a Hin k Hk.
  - destruct Hin.
  - apply message_trace_about in Hm. rewrite Forall_forall in Hm.
    destruct (Hm _ Hin) as [a' Heq]. injection Heq as -> _. lia.
  - apply in_app_or in Hin as [Hin|Hin].
    + pose proof (message_trace_about _ _ _ _ _ Hm) as Hidx.
      rewrite Forall_forall in Hidx.
      destruct (Hidx _ Hin) as [a' Heq]. injection Heq as -> _. lia.
    + destruct (Nat.eq_dec k i) as [->|Hne].
      * exists m0. rewrite Nat.sub_diag. split; [reflexivity|].
        apply before_app; [|exact Hin].
        now destruct (message_trace_completed _ _ _ _ Hm) as (_ & _ & _ & H).
      * destruct (IH j a Hin k ltac:(lia)) as (m & Hnth & Hd).
        exists m. split; [|now apply before_app_r].
        replace (k - i)%nat with (S (k - S i)) by lia. exact Hnth.
Qed.

(** X10. Messages are handled in the order received, one after the
    other: any event about the message at position [j] comes, in the
    trace of the cycle, after the successful delete of every message at
    an earlier position. *)
Theorem earlier_messages_are_deleted_first (sv : services) (fuel : nat)
    (w : world sv) (j k : nat) (a : action) :
  In (Msg j a) (trace (drain sv fuel w)) ->
  (k < j)%nat ->
  exists m,
    nth_error (received_messages (trace (drain sv fuel w))) k = Some m /\
    before (Msg k (Delete (ReceiptHandle m) true)) (Msg j a)
      (trace (drain sv fuel w)).
Proof.
  intros Hin Hk.
  destruct (drain_loop sv fuel w)
    as [Hnone | (recv & rest & b & Htr & Hno & Hmsgs & Hloop & _)].
  - now contradiction (Hnone j a).
  - rewrite Hmsgs. rewrite Htr in Hin |- *.
    apply in_app_or in Hin as [Hin|Hin]; [now contradiction (Hno j a)|].
    destruct (loop_trace_ordered _ _ _ _ _ Hloop j a Hin k ltac:(lia))
      as (m & Hnth & Hd).
    exists m. rewrite Nat.sub_0_r in Hnth. split; [exact Hnth|].
    now apply before_app_r.
Qed.

Lemma earlier_messages_are_deleted_first_witness :
  In (Msg 1 (Loads false))
     (trace (drain Demo.healthy 5 (Demo.online Demo.healthy Demo.three))) /\
  (0 < 1)%nat /\
  exists m,
    nth_error (received_messages
                 (trace (drain Demo.healthy 5
                           (Demo.online Demo.healthy Demo.three)))) 0
    = Some m /\
    before (Msg 0 (Delete (ReceiptHandle m) true)) (Msg 1 (Loads false))
      (trace (drain Demo.healthy 5 (Demo.online Demo.healthy Demo.three))).
Proof.
  assert (H1 : In (Msg 1 (Loads false))
                 (trace (drain Demo.healthy 5
                           (Demo.online Demo.healthy Demo.three))))
    by (vm_compute; in_list).
  assert (H2 : (0 < 1)%nat) by lia.
  split; [exact H1|]. split; [exact H2|].
  exact (earlier_messages_are_deleted_first Demo.healthy 5
           (Demo.online Demo.healthy Demo.three) 1 0 (Loads false) H1 H2).
Defined.

Lemma message_trace_counts (sv : services) (i : nat) (m : message)
    (t : list event) (b : bool) :
  message_trace sv i m t b ->
  (count_events is_execute t <= 1)%nat /\
  (count_events is_delete t <= 1)%nat.
Proof. intros Hmt. destruct Hmt; cbn; lia. Qed.

(** X11. In one drain cycle the trace holds at most one insert event and
    at most one delete event about any one message position: no message
    is inserted twice or deleted twice from the same place in the
    batch. *)
Theorem one_insert_and_one_delete_per_message (sv : services) (fuel : nat)
    (w : world sv) (j : nat) :
  (count_events is_execute (events_of j (trace (drain sv fuel w))) <= 1)%nat /\
  (count_events is_delete (events_of j (trace (drain sv fuel w))) <= 1)%nat.
Proof.
  destruct (drain_events_of sv fuel w j) as [-> | (m & b & _ & Hmt)].
  - cbn. lia.
  - eapply message_trace_counts; eauto.
Qed.

Example one_insert_and_one_delete_in_the_batch :
  count_events is_execute
    (events_of 0 (trace (drain Demo.healthy 5
                           (Demo.online Demo.healthy Demo.three)))) = 1%nat /\
  count_events is_delete
    (events_of 0 (trace (drain Demo.healthy 5
                           (Demo.online Demo.healthy Demo.three)))) = 1%nat.
Proof. vm_compute. auto. Qed.
